(** * The automation Stack (sdk/nodejs/x/automation/stack.ts) and the
      deploytest language runtime (pkg/resource/deploy/deploytest/languageruntime.go)

    A shallow embedding of the two source files.  The TypeScript side is
    asynchronous code over two collaborators that are imported, not defined,
    in stack.ts: the [Workspace] interface and the command endpoint
    [runPulumiCmd] of "./cmd".  Both are taken as parameters acting on an
    abstract world; the Stack methods are written in a state-and-error monad
    over that world, which also keeps the list of endpoint invocations. *)

From stdpp Require Import base strings list gmap pretty.

(** ** JavaScript values *)

Module JS.

(** Numbers are the integral ones: [parallel] is a worker count and array
    lengths are naturals; fractional values and NaN are outside the model. *)
Definition number := Z.

(** The values [JSON.parse] produces.  An object is modelled by the finite
    map of its own properties and property assignment by map insertion (the
    accessor key [__proto__] inherited from [Object.prototype] is outside
    the model). *)
#[warnings="-register-all"] Inductive Json : Type :=
  | JNull
  | JBool (b : bool)
  | JNumber (n : number)
  | JString (s : string)
  | JArray (xs : list Json)
  | JObject (props : gmap string Json).

Inductive JsError : Type :=
  | Error (message : string)
  | TypeError (message : string)
  | SyntaxError (message : string).

(** The settled state of a promise, or the outcome of a call that may throw. *)
Inductive result (A : Type) : Type :=
  | Ok (a : A)
  | Err (e : JsError).
Arguments Ok {A} a.
Arguments Err {A} e.

Definition result_bind {A B} (r : result A) (f : A → result B) : result B :=
  match r with
  | Ok a => f a
  | Err e => Err e
  end.

(** [ToBoolean] on strings, numbers and JSON values. *)
Definition truthy_string (s : string) : bool := negb (String.eqb s "").
Definition truthy_number (n : number) : bool := negb (n =? 0)%Z.

Definition truthy (v : Json) : bool :=
  match v with
  | JNull => false
  | JBool b => b
  | JNumber n => truthy_number n
  | JString s => truthy_string s
  | JArray _ | JObject _ => true
  end.

(** [n.toString()] on an integral number. *)
Definition toString (n : number) : string := pretty n.

(** The characters of a string, each as a string of its own. *)
Fixpoint chars (s : string) : list string :=
  match s with
  | EmptyString => []
  | String c s' => String c EmptyString :: chars s'
  end.

(** The array index [i < len] that the property key [key] spells. *)
Definition index_of_key (key : string) (len : nat) : option nat :=
  List.find (λ i, bool_decide (pretty i = key)) (seq 0 len).

Definition indexed (xs : list Json) (key : string) : option Json :=
  if bool_decide (key = "length") then Some (JNumber (Z.of_nat (length xs)))
  else i ← index_of_key key (length xs); xs !! i.

(** Property read [o[key]].  [None] stands for [undefined] and for the
    built-in members of the prototypes, none of which is a JSON value. *)
Definition get (o : Json) (key : string) : result (option Json) :=
  match o with
  | JNull => Err (TypeError "Cannot read properties of null")
  | JObject props => Ok (props !! key)
  | JArray xs => Ok (indexed xs key)
  | JString s => Ok (indexed (JString <$> chars s) key)
  | JBool _ | JNumber _ => Ok None
  end.

(** [Object.entries(o)]: the own enumerable string-keyed properties. *)
Definition Object_entries (o : Json) : result (list (string * Json)) :=
  match o with
  | JNull => Err (TypeError "Cannot convert undefined or null to object")
  | JObject props => Ok (map_to_list props)
  | JArray xs => Ok (imap (λ i x, (pretty i, x)) xs)
  | JString s => Ok (imap (λ i c, (pretty i, JString c)) (chars s))
  | JBool _ | JNumber _ => Ok []
  end.

(** [v === lit] for a string literal and [v === n] for a number literal. *)
Definition strict_eq_string (v : option Json) (lit : string) : bool :=
  match v with
  | Some (JString s) => bool_decide (s = lit)
  | _ => false
  end.

Definition strict_eq_number (v : option Json) (n : number) : bool :=
  match v with
  | Some (JNumber m) => bool_decide (m = n)
  | _ => false
  end.

End JS.

(** ** stack.ts *)

Module Automation.
Import JS.

(** *** The declared types *)

(** [CommandResult] of "./cmd". *)
Record CommandResult : Type := { stdout : string; stderr : string }.

Record OutputValue : Type := { value : Json; secret : bool }.

Abbreviation OutputMap := (gmap string OutputValue).

(** An [UpdateSummary] is whatever value the history JSON holds: the code
    casts the parsed value and never inspects it.  The [summary] field of a
    result is [None] when it holds [undefined]. *)
Definition UpdateSummary : Type := Json.

Record UpResult : Type := {
  up_stdout : string;
  up_stderr : string;
  up_outputs : OutputMap;
  up_summary : option UpdateSummary;
}.

(** [PreviewResult], [RefreshResult] and [DestroyResult] have the same
    three fields. *)
Record OpResult : Type := {
  op_stdout : string;
  op_stderr : string;
  op_summary : option UpdateSummary;
}.

Definition PreviewResult : Type := OpResult.
Definition RefreshResult : Type := OpResult.
Definition DestroyResult : Type := OpResult.

(** The options bags.  An optional field is [None] when it is absent
    ([undefined]); [PulumiFn] and the [onOutput] callback are opaque. *)
Module UpOptions.
Record t {PulumiFn OutputSink : Type} : Type := {
  parallel : option number;
  message : option string;
  expectNoChanges : option bool;
  replace : option (list string);
  target : option (list string);
  targetDependents : option bool;
  onOutput : option OutputSink;
  program : option PulumiFn;
}.
Arguments t : clear implicits.
End UpOptions.

Module PreviewOptions.
Record t {PulumiFn : Type} : Type := {
  parallel : option number;
  message : option string;
  expectNoChanges : option bool;
  replace : option (list string);
  target : option (list string);
  targetDependents : option bool;
  program : option PulumiFn;
}.
Arguments t : clear implicits.
End PreviewOptions.

Module RefreshOptions.
Record t {OutputSink : Type} : Type := {
  parallel : option number;
  message : option string;
  expectNoChanges : option bool;
  target : option (list string);
  onOutput : option OutputSink;
}.
Arguments t : clear implicits.
End RefreshOptions.

Module DestroyOptions.
Record t {OutputSink : Type} : Type := {
  parallel : option number;
  message : option string;
  target : option (list string);
  targetDependents : option bool;
  onOutput : option OutputSink;
}.
Arguments t : clear implicits.
End DestroyOptions.

Definition execKind_local : string := "auto.local".
Definition execKind_inline : string := "auto.inline".

(** *** The collaborators *)

(** One call of the command endpoint [runPulumiCmd(args, cwd, envs, onOutput)]. *)
Record Invocation {OutputSink : Type} : Type := {
  inv_args : list string;
  inv_cwd : string;
  inv_envs : gmap string string;
  inv_onOutput : option OutputSink;
}.
Arguments Invocation : clear implicits.

(** The members of the [Workspace] interface that stack.ts calls for the
    stack lifecycle.  A method returning a promise takes the world to its
    settled outcome and the next world; a synchronous getter reads the world. *)
Record Workspace {World PulumiFn : Type} : Type := {
  createStack : string → World → result unit * World;
  selectStack : string → World → result unit * World;
  getProgram : World → option PulumiFn;
  getPulumiHome : World → option string;
  getEnvVars : World → result (gmap string string) * World;
  serializeArgsForOp : string → World → result (list string) * World;
  getWorkDir : World → string;
  postCommandCallback : string → World → result unit * World;
}.
Arguments Workspace : clear implicits.

(** The state an operation runs in: the world of the collaborators and the
    endpoint invocations made so far, oldest first. *)
Record State {World OutputSink : Type} : Type := {
  world : World;
  spawned : list (Invocation OutputSink);
}.
Arguments State : clear implicits.

Definition Async (World OutputSink A : Type) : Type :=
  State World OutputSink → result A * State World OutputSink.

Record Stack : Type := {
  name : string;
  ready : result unit;
}.


(** *** The monad of asynchronous code *)

Section Monad.
Context {World OutputSink : Type}.

Definition ret {A} (a : A) : Async World OutputSink A := λ s, (Ok a, s).

(** [throw e], and a promise that rejects with [e]. *)
Definition throw {A} (e : JsError) : Async World OutputSink A := λ s, (Err e, s).

Definition bind {A B} (m : Async World OutputSink A)
    (f : A → Async World OutputSink B) : Async World OutputSink B :=
  λ s, match m s with
       | (Ok a, s') => f a s'
       | (Err e, s') => (Err e, s')
       end.

(** [p.catch(h)]. *)
Definition catch {A} (m : Async World OutputSink A)
    (h : JsError → Async World OutputSink A) : Async World OutputSink A :=
  λ s, match m s with
       | (Ok a, s') => (Ok a, s')
       | (Err e, s') => h e s'
       end.

(** Calling an asynchronous function without awaiting it: the call runs and
    the promise it returns holds the settled outcome. *)
Definition promise {A} (m : Async World OutputSink A)
    : Async World OutputSink (result A) :=
  λ s, let '(r, s') := m s in (Ok r, s').

(** [await p]; [Promise.all] awaits the promises of its array in order. *)
Definition await {A} (p : result A) : Async World OutputSink A := λ s, (p, s).

(** A call of a promise-returning collaborator method. *)
Definition call {A} (f : World → result A * World) : Async World OutputSink A :=
  λ s, let '(r, w) := f (world s) in (r, {| world := w; spawned := spawned s |}).

(** A call of a synchronous getter. *)
Definition read {A} (f : World → A) : Async World OutputSink A :=
  λ s, (Ok (f (world s)), s).

(** A call of the command endpoint; the invocation is recorded. *)
Definition spawn (exec : Invocation OutputSink → World → result CommandResult * World)
    (i : Invocation OutputSink) : Async World OutputSink CommandResult :=
  λ s, let '(r, w) := exec i (world s) in
       (r, {| world := w; spawned := spawned s ++ [i] |}).

End Monad.

#[global] Instance Async_ret {World OutputSink} : MRet (Async World OutputSink) :=
  λ A, ret.
#[global] Instance Async_bind {World OutputSink} : MBind (Async World OutputSink) :=
  λ A B f m, bind m f.

#[global] Instance result_ret : MRet result := λ A, Ok.
#[global] Instance result_bind_inst : MBind result := λ A B f r, result_bind r f.

(** A synchronous step that may throw. *)
Definition sync {World OutputSink A} (r : result A) : Async World OutputSink A :=
  await r.

(** [for (const x of xs) body], the loop state threaded through [body]. *)
Fixpoint for_of {A S : Type} (body : S → A → result S) (s : S) (xs : list A)
    : result S :=
  match xs with
  | [] => Ok s
  | x :: xs' => s' ← body s x; for_of body s' xs'
  end.

(** *** Building the argument list

    The four lifecycle methods repeat the same statements on their options;
    each statement is a function from the [args] array before it to the
    array after it. *)

(** [if (opts.message) { args.push("--message", opts.message); }] *)
Definition push_message (message : option string) (args : list string)
    : list string :=
  match message with
  | Some m => if truthy_string m then args ++ ["--message"; m] else args
  | None => args
  end.

(** [if (opts.expectNoChanges) { args.push("--expect-no-changes"); }] and
    the same statement for [targetDependents]. *)
Definition push_switch (flag : string) (field : option bool) (args : list string)
    : list string :=
  match field with
  | Some b => if b then args ++ [flag] else args
  | None => args
  end.

(** [if (opts.replace) { for (const rURN of opts.replace) { args.push("--replace", rURN); } }]
    and the same statement for [target]. *)
Definition push_each (flag : string) (urns : option (list string))
    (args : list string) : list string :=
  match urns with
  | Some us => foldl (λ args u, args ++ [flag; u]) args us
  | None => args
  end.

(** [if (opts.parallel) { args.push("--parallel", opts.parallel.toString()); }] *)
Definition push_parallel (parallel : option number) (args : list string)
    : list string :=
  match parallel with
  | Some n => if truthy_number n then args ++ ["--parallel"; toString n] else args
  | None => args
  end.

Section Options.
Context {PulumiFn OutputSink : Type}.

(** [if (opts.program) { program = opts.program; }] *)
Definition set_program (field program : option PulumiFn) : option PulumiFn :=
  match field with
  | Some p => Some p
  | None => program
  end.

(** Lines 67-93 of [up]: the locals [program] and [args] after the options. *)
Definition up_options (opts : option (UpOptions.t PulumiFn OutputSink))
    (program : option PulumiFn) (args : list string)
    : option PulumiFn * list string :=
  match opts with
  | Some o =>
      let program := set_program (UpOptions.program o) program in
      let args := push_message (UpOptions.message o) args in
      let args := push_switch "--expect-no-changes" (UpOptions.expectNoChanges o) args in
      let args := push_each "--replace" (UpOptions.replace o) args in
      let args := push_each "--target" (UpOptions.target o) args in
      let args := push_switch "--target-dependents" (UpOptions.targetDependents o) args in
      let args := push_parallel (UpOptions.parallel o) args in
      (program, args)
  | None => (program, args)
  end.

(** Lines 119-145 of [preview]. *)
Definition preview_options (opts : option (PreviewOptions.t PulumiFn))
    (program : option PulumiFn) (args : list string)
    : option PulumiFn * list string :=
  match opts with
  | Some o =>
      let program := set_program (PreviewOptions.program o) program in
      let args := push_message (PreviewOptions.message o) args in
      let args := push_switch "--expect-no-changes" (PreviewOptions.expectNoChanges o) args in
      let args := push_each "--replace" (PreviewOptions.replace o) args in
      let args := push_each "--target" (PreviewOptions.target o) args in
      let args := push_switch "--target-dependents" (PreviewOptions.targetDependents o) args in
      let args := push_parallel (PreviewOptions.parallel o) args in
      (program, args)
  | None => (program, args)
  end.

(** Lines 167-182 of [refresh]. *)
Definition refresh_options (opts : option (RefreshOptions.t OutputSink))
    (args : list string) : list string :=
  match opts with
  | Some o =>
      let args := push_message (RefreshOptions.message o) args in
      let args := push_switch "--expect-no-changes" (RefreshOptions.expectNoChanges o) args in
      let args := push_each "--target" (RefreshOptions.target o) args in
      let args := push_parallel (RefreshOptions.parallel o) args in
      args
  | None => args
  end.

(** Lines 197-212 of [destroy]. *)
Definition destroy_options (opts : option (DestroyOptions.t OutputSink))
    (args : list string) : list string :=
  match opts with
  | Some o =>
      let args := push_message (DestroyOptions.message o) args in
      let args := push_each "--target" (DestroyOptions.target o) args in
      let args := push_switch "--target-dependents" (DestroyOptions.targetDependents o) args in
      let args := push_parallel (DestroyOptions.parallel o) args in
      args
  | None => args
  end.

(** Lines 95-99 of [up] and 147-151 of [preview]: the local [kind] after the
    statement, and the error it throws, if any. *)
Definition inline_check (program : option PulumiFn) (kind : string)
    : string * option JsError :=
  match program with
  | Some _ => (execKind_inline, Some (Error "NYI: inline programs"))
  | None => (kind, None)
  end.

End Options.

(** *** The Stack class *)

Definition secretSentinal : string := "[secret]".

(** The body of the loop of [outputs] (lines 256-257). *)
Definition outputs_step (maskedOuts : Json) (outputs : OutputMap)
    (entry : string * Json) : result OutputMap :=
  let '(key, value) := entry in
  masked ← get maskedOuts key;
  let secret := strict_eq_string masked secretSentinal in
  Ok (<[key := {| value := value; secret := secret |}]> outputs).

(** Lines 251-258 of [outputs]: from the two standard outputs to the map. *)
Definition outputs_of (JSON_parse : string → result Json)
    (masked_stdout plaintext_stdout : string) : result OutputMap :=
  maskedOuts ← JSON_parse masked_stdout;
  plaintextOuts ← JSON_parse plaintext_stdout;
  let outputs : OutputMap := ∅ in
  entries ← Object_entries plaintextOuts;
  for_of (outputs_step maskedOuts) outputs entries.

(** Lines 269-272 of [info]: from the value of [history()] to the summary. *)
Definition info_of (history : Json) : result (option UpdateSummary) :=
  empty ← (if negb (truthy history) then Ok true
           else len ← get history "length"; Ok (strict_eq_number len 0%Z));
  if (empty : bool) then Ok None else get history "0".

Section Stack.
Context {World PulumiFn OutputSink : Type}.
Context (workspace : Workspace World PulumiFn).
Context (cmd_runPulumiCmd :
  Invocation OutputSink → World → result CommandResult * World).
Context (JSON_parse : string → result Json).

Local Abbreviation M := (Async World OutputSink).

(** The constructor; [mode] is the runtime string, so that the [default]
    branch of the switch is reachable. *)
Definition constructor (name : string) (mode : string) : M Stack :=
  if decide (mode = "create") then
    ready ← promise (call (createStack workspace name));
    ret {| name := name; ready := ready |}
  else if decide (mode = "select") then
    ready ← promise (call (selectStack workspace name));
    ret {| name := name; ready := ready |}
  else if decide (mode = "upsert") then
    ready ← promise (catch (call (createStack workspace name))
                           (λ _, call (selectStack workspace name)));
    ret {| name := name; ready := ready |}
  else throw (Error ("unexpected Stack creation mode: " ++ mode)).

Definition Create (name : string) : M Stack :=
  stack ← constructor name "create";
  await (ready stack);;
  ret stack.

Definition Select (name : string) : M Stack :=
  stack ← constructor name "select";
  await (ready stack);;
  ret stack.

Definition Upsert (name : string) : M Stack :=
  stack ← constructor name "upsert";
  await (ready stack);;
  ret stack.

(** The private method [runPulumiCmd]. *)
Definition runPulumiCmd (this : Stack) (args : list string)
    (onOutput : option OutputSink) : M CommandResult :=
  let envs : gmap string string := ∅ in
  pulumiHome ← read (getPulumiHome workspace);
  let envs :=
    match pulumiHome with
    | Some home => if truthy_string home then <["PULUMI_HOME" := home]> envs else envs
    | None => envs
    end in
  additionalEnvs ← call (getEnvVars workspace);
  let envs := additionalEnvs ∪ envs in
  additionalArgs ← call (serializeArgsForOp workspace (name this));
  let args := args ++ additionalArgs in
  cwd ← read (getWorkDir workspace);
  result ← spawn cmd_runPulumiCmd
    {| inv_args := args; inv_cwd := cwd; inv_envs := envs; inv_onOutput := onOutput |};
  call (postCommandCallback workspace (name this));;
  ret result.

Definition history (this : Stack) : M Json :=
  result ← runPulumiCmd this ["history"; "--json"; "--show-secrets"] None;
  summaries ← sync (JSON_parse (stdout result));
  ret summaries.

Definition info (this : Stack) : M (option UpdateSummary) :=
  history ← history this;
  sync (info_of history).

(** [Promise.all] over the two command promises is modelled by starting the
    masked command, then the plaintext one, and awaiting them in that order. *)
Definition outputs (this : Stack) : M OutputMap :=
  call (selectStack workspace (name this));;
  maskedPromise ← promise (runPulumiCmd this ["stack"; "output"; "--json"] None);
  plaintextPromise ←
    promise (runPulumiCmd this ["stack"; "output"; "--json"; "--show-secrets"] None);
  masked ← await maskedPromise;
  plaintext ← await plaintextPromise;
  sync (outputs_of JSON_parse (stdout masked) (stdout plaintext)).

(** Lines 62-102 of [up]: everything up to the completion of the command. *)
Definition up_run (this : Stack) (opts : option (UpOptions.t PulumiFn OutputSink))
    : M CommandResult :=
  let args := ["up"; "--yes"; "--skip-preview"] in
  let kind := execKind_local in
  program ← read (getProgram workspace);
  call (selectStack workspace (name this));;
  let '(program, args) := up_options opts program args in
  let '(kind, thrown) := inline_check program kind in
  match thrown with
  | Some e => throw e
  | None =>
      let args := args ++ ["--exec-kind"; kind] in
      runPulumiCmd this args (opts ≫= UpOptions.onOutput)
  end.

Definition up (this : Stack) (opts : option (UpOptions.t PulumiFn OutputSink))
    : M UpResult :=
  upResult ← up_run this opts;
  status0 ← promise (info this);
  status1 ← promise (outputs this);
  summary ← await status0;
  outs ← await status1;
  ret {| up_stdout := stdout upResult; up_stderr := stderr upResult;
         up_summary := summary; up_outputs := outs |}.

(** The common end of [preview], [refresh] and [destroy]: the summary is
    read and the result assembled (lines 155-161, 185-191 and 215-221). *)
Definition summarize (this : Stack) (cmdResult : CommandResult) : M OpResult :=
  summary ← info this;
  ret {| op_stdout := stdout cmdResult; op_stderr := stderr cmdResult;
         op_summary := summary |}.

(** Lines 114-154 of [preview]. *)
Definition preview_run (this : Stack) (opts : option (PreviewOptions.t PulumiFn))
    : M CommandResult :=
  let args := ["preview"] in
  let kind := execKind_local in
  program ← read (getProgram workspace);
  call (selectStack workspace (name this));;
  let '(program, args) := preview_options opts program args in
  let '(kind, thrown) := inline_check program kind in
  match thrown with
  | Some e => throw e
  | None =>
      let args := args ++ ["--exec-kind"; kind] in
      runPulumiCmd this args None
  end.

Definition preview (this : Stack) (opts : option (PreviewOptions.t PulumiFn))
    : M PreviewResult :=
  preResult ← preview_run this opts;
  summarize this preResult.

(** Lines 164-184 of [refresh]. *)
Definition refresh_run (this : Stack) (opts : option (RefreshOptions.t OutputSink))
    : M CommandResult :=
  let args := ["refresh"; "--yes"; "--skip-preview"] in
  call (selectStack workspace (name this));;
  let args := refresh_options opts args in
  runPulumiCmd this args None.

Definition refresh (this : Stack) (opts : option (RefreshOptions.t OutputSink))
    : M RefreshResult :=
  refResult ← refresh_run this opts;
  summarize this refResult.

(** Lines 194-214 of [destroy]. *)
Definition destroy_run (this : Stack) (opts : option (DestroyOptions.t OutputSink))
    : M CommandResult :=
  let args := ["destroy"; "--yes"; "--skip-preview"] in
  call (selectStack workspace (name this));;
  let args := destroy_options opts args in
  runPulumiCmd this args None.

Definition destroy (this : Stack) (opts : option (DestroyOptions.t OutputSink))
    : M DestroyResult :=
  preResult ← destroy_run this opts;
  summarize this preResult.

End Stack.

(** *** The invocations an asynchronous computation makes *)

Section Invocations.
Context {World OutputSink : Type}.

(** [m] never removes or rewrites a recorded invocation. *)
Definition grows {A} (m : Async World OutputSink A) : Prop :=
  ∀ s, spawned s `prefix_of` spawned (m s).2.

(** [m] either fails without invoking the endpoint, or its first invocation
    has an argument list that starts with [args]. *)
Definition opens_with {A} (args : list string) (m : Async World OutputSink A)
    : Prop :=
  ∀ s,
    (spawned (m s).2 = spawned s ∧ ∃ e, (m s).1 = Err e)
    ∨ (∃ i later extra,
         spawned (m s).2 = spawned s ++ i :: later ∧ inv_args i = args ++ extra).

(** [m] appends invocations to the record, all of them satisfying [P]. *)
Definition only_spawns {A} (P : Invocation OutputSink → Prop)
    (m : Async World OutputSink A) : Prop :=
  ∀ s, ∃ l, spawned (m s).2 = spawned s ++ l ∧ Forall P l.

End Invocations.

(** *** The members of stack.ts outside the class body *)

(** The environment [runPulumiCmd] starts from: [PULUMI_HOME] alone, when
    the workspace has a non-empty home. *)
Definition base_env (pulumiHome : option string) : gmap string string :=
  match pulumiHome with
  | Some home => if truthy_string home then <["PULUMI_HOME" := home]> ∅ else ∅
  | None => ∅
  end.

Definition getName (this : Stack) : string := name this.

(** The template literal [`${org}/${project}/${stack}`]. *)
Definition FullyQualifiedStackName (org project stack : string) : string :=
  org +:+ "/" +:+ project +:+ "/" +:+ stack.

End Automation.

(** ** languageruntime.go *)

Module Deploytest.

(** Go errors: an error made elsewhere, known by its message, or one
    wrapped by [errors.Wrapf] of github.com/pkg/errors. *)
Inductive error : Type :=
  | errors_New (msg : string)
  | errors_Wrapf (cause : error) (format : string).

(** The [Error()] method. *)
Fixpoint Error (e : error) : string :=
  match e with
  | errors_New msg => msg
  | errors_Wrapf cause format => format ++ ": " ++ Error cause
  end.

(** The [ResourceMonitor] struct, as the composite literal in [Run] fills it. *)
Record ResourceMonitor {ResourceMonitorClient : Type} : Type := {
  resmon : ResourceMonitorClient;
  rm_enableSecrets : bool;
}.
Arguments ResourceMonitor : clear implicits.

Section LanguageRuntime.
(** [plugin.RunInfo] with its [MonitorAddress] field, [workspace.PluginInfo],
    the gRPC connection and client, and [grpc.Dial] are declared outside
    this file. *)
Context {RunInfo PluginInfo ClientConn ResourceMonitorClient : Type}.
Context (MonitorAddress : RunInfo → string).
Context (grpc_Dial : string → ClientConn + error).
Context (NewResourceMonitorClient : ClientConn → ResourceMonitorClient).

(** A program returns [None] for [nil]; its calls on the monitor are not
    modelled. *)
Definition ProgramFunc : Type :=
  RunInfo → ResourceMonitor ResourceMonitorClient → option error.

Record languageRuntime : Type := {
  requiredPlugins : list PluginInfo;
  program : ProgramFunc;
  enableSecrets : bool;
}.

Definition LanguageRuntimeOption : Type := languageRuntime → languageRuntime.

Definition RequiredPlugin (info : PluginInfo) : LanguageRuntimeOption :=
  λ r, {| requiredPlugins := requiredPlugins r ++ [info];
          program := program r; enableSecrets := enableSecrets r |}.

Definition EnableSecrets (enable : bool) : LanguageRuntimeOption :=
  λ r, {| requiredPlugins := requiredPlugins r;
          program := program r; enableSecrets := enable |}.

Definition NewLanguageRuntime (program : ProgramFunc)
    (options : list LanguageRuntimeOption) : languageRuntime :=
  let r := {| requiredPlugins := []; program := program; enableSecrets := false |} in
  foldl (λ r o, o r) r options.

Definition Close (p : languageRuntime) : option error := None.

Definition GetRequiredPlugins (p : languageRuntime)
    : list PluginInfo * option error :=
  (requiredPlugins p, None).

(** [Run].  The goroutine sends the value the program returns on the
    unbuffered channel [done] and [Run] receives it: a call of the program. *)
Definition Run (p : languageRuntime) (info : RunInfo) : string * option error :=
  match grpc_Dial (MonitorAddress info) with
  | inr err => ("", Some (errors_Wrapf err "could not connect to resource monitor"))
  | inl conn =>
      let resmon := NewResourceMonitorClient conn in
      let progerr :=
        program p info {| resmon := resmon; rm_enableSecrets := enableSecrets p |} in
      match progerr with
      | Some e => (Error e, None)
      | None => ("", None)
      end
  end.

End LanguageRuntime.

Section Options.
Context {RunInfo PluginInfo ResourceMonitorClient : Type}.

(** The two options of the file, named by what they carry: a plugin for
    [RequiredPlugin], a boolean for [EnableSecrets]. *)
Definition option_of (d : PluginInfo + bool)
    : @LanguageRuntimeOption RunInfo PluginInfo ResourceMonitorClient :=
  match d with
  | inl info => RequiredPlugin info
  | inr enable => EnableSecrets enable
  end.

Definition plugin_of (d : PluginInfo + bool) : option PluginInfo :=
  match d with
  | inl info => Some info
  | inr _ => None
  end.

Definition secrets_of (d : PluginInfo + bool) : option bool :=
  match d with
  | inl _ => None
  | inr enable => Some enable
  end.

End Options.

End Deploytest.

(** ** The option-to-flag table of the specification

    What each option field contributes to the argument list, written from
    the table of the specification, to compare with the statements of the
    four methods. *)

Module FlagTable.
Import JS Automation.

(** [message]: [--message <msg>]. *)
Definition message_flags (message : option string) : list string :=
  match message with
  | Some m => if truthy_string m then ["--message"; m] else []
  | None => []
  end.

(** [expectNoChanges] and [targetDependents]: the bare flag. *)
Definition switch_flags (flag : string) (field : option bool) : list string :=
  match field with
  | Some true => [flag]
  | Some false | None => []
  end.

(** [replace] and [target]: the flag once per element, in input order. *)
Definition repeated_flags (flag : string) (urns : option (list string))
    : list string :=
  match urns with
  | Some us => us ≫= λ u, [flag; u]
  | None => []
  end.

(** [parallel]: [--parallel <n>]. *)
Definition parallel_flags (parallel : option number) : list string :=
  match parallel with
  | Some n => if truthy_number n then ["--parallel"; toString n] else []
  | None => []
  end.




Section OnlyTarget.
Context {PulumiFn OutputSink : Type}.

(** The options objects whose only field is [target]. *)
Definition up_only_target (urns : list string) : UpOptions.t PulumiFn OutputSink :=
  {| UpOptions.parallel := None; UpOptions.message := None;
     UpOptions.expectNoChanges := None; UpOptions.replace := None;
     UpOptions.target := Some urns; UpOptions.targetDependents := None;
     UpOptions.onOutput := None; UpOptions.program := None |}.

Definition preview_only_target (urns : list string) : PreviewOptions.t PulumiFn :=
  {| PreviewOptions.parallel := None; PreviewOptions.message := None;
     PreviewOptions.expectNoChanges := None; PreviewOptions.replace := None;
     PreviewOptions.target := Some urns; PreviewOptions.targetDependents := None;
     PreviewOptions.program := None |}.

Definition refresh_only_target (urns : list string) : RefreshOptions.t OutputSink :=
  {| RefreshOptions.parallel := None; RefreshOptions.message := None;
     RefreshOptions.expectNoChanges := None; RefreshOptions.target := Some urns;
     RefreshOptions.onOutput := None |}.

Definition destroy_only_target (urns : list string) : DestroyOptions.t OutputSink :=
  {| DestroyOptions.parallel := None; DestroyOptions.message := None;
     DestroyOptions.target := Some urns; DestroyOptions.targetDependents := None;
     DestroyOptions.onOutput := None |}.

End OnlyTarget.

Section PerOperation.
Context {PulumiFn OutputSink : Type}.

(** The optional flags of each operation, in the fixed order. *)
Definition up_flags (opts : option (UpOptions.t PulumiFn OutputSink)) : list string :=
  match opts with
  | Some o =>
      message_flags (UpOptions.message o)
      ++ switch_flags "--expect-no-changes" (UpOptions.expectNoChanges o)
      ++ repeated_flags "--replace" (UpOptions.replace o)
      ++ repeated_flags "--target" (UpOptions.target o)
      ++ switch_flags "--target-dependents" (UpOptions.targetDependents o)
      ++ parallel_flags (UpOptions.parallel o)
  | None => []
  end.

Definition preview_flags (opts : option (PreviewOptions.t PulumiFn)) : list string :=
  match opts with
  | Some o =>
      message_flags (PreviewOptions.message o)
      ++ switch_flags "--expect-no-changes" (PreviewOptions.expectNoChanges o)
      ++ repeated_flags "--replace" (PreviewOptions.replace o)
      ++ repeated_flags "--target" (PreviewOptions.target o)
      ++ switch_flags "--target-dependents" (PreviewOptions.targetDependents o)
      ++ parallel_flags (PreviewOptions.parallel o)
  | None => []
  end.

Definition refresh_flags (opts : option (RefreshOptions.t OutputSink)) : list string :=
  match opts with
  | Some o =>
      message_flags (RefreshOptions.message o)
      ++ switch_flags "--expect-no-changes" (RefreshOptions.expectNoChanges o)
      ++ repeated_flags "--target" (RefreshOptions.target o)
      ++ parallel_flags (RefreshOptions.parallel o)
  | None => []
  end.

Definition destroy_flags (opts : option (DestroyOptions.t OutputSink)) : list string :=
  match opts with
  | Some o =>
      message_flags (DestroyOptions.message o)
      ++ repeated_flags "--target" (DestroyOptions.target o)
      ++ switch_flags "--target-dependents" (DestroyOptions.targetDependents o)
      ++ parallel_flags (DestroyOptions.parallel o)
  | None => []
  end.

End PerOperation.

End FlagTable.

(** ** Names without a separator *)

Module Names.

Definition slash : Ascii.ascii := Ascii.ascii_of_nat 47.

(** [s] holds no "/". *)
Fixpoint no_slash (s : string) : bool :=
  match s with
  | EmptyString => true
  | String c s' => negb (Ascii.eqb c slash) && no_slash s'
  end.

End Names.

(** ** A workspace and an engine to run the model on *)

Module Demo.
Import JS Automation.

(** A world of named stacks, one of them selected, and the three documents
    the engine prints. *)
Record World : Type := {
  stacks : list string;
  current : option string;
  registered : bool;
  history_doc : string;
  masked_doc : string;
  plaintext_doc : string;
}.

Definition with_stack (name : string) (fresh : bool) (w : World) : World :=
  {| stacks := if fresh then name :: stacks w else stacks w;
     current := Some name;
     registered := registered w;
     history_doc := history_doc w;
     masked_doc := masked_doc w;
     plaintext_doc := plaintext_doc w |}.

Definition workspace : Workspace World unit := {|
  createStack name w :=
    if bool_decide (name ∈ stacks w)
    then (Err (Error ("stack already exists: " ++ name)), w)
    else (Ok (), with_stack name true w);
  selectStack name w :=
    if bool_decide (name ∈ stacks w)
    then (Ok (), with_stack name false w)
    else (Err (Error ("no stack named: " ++ name)), w);
  getProgram w := if registered w then Some () else None;
  getPulumiHome w := Some "/home/pulumi";
  getEnvVars w := (Ok {[ "PULUMI_SKIP_UPDATE_CHECK" := "1" ]}, w);
  serializeArgsForOp name w := (Ok ["--stack"; name], w);
  getWorkDir w := "/work";
  postCommandCallback name w := (Ok (), w);
|}.

(** The engine answers the history and output queries with the documents
    of the world and any other command with a fixed line. *)
Definition engine (i : Invocation unit) (w : World) : result CommandResult * World :=
  let out :=
    if bool_decide (take 1 (inv_args i) = ["history"]) then history_doc w
    else if bool_decide (take 4 (inv_args i) = ["stack"; "output"; "--json"; "--show-secrets"])
    then plaintext_doc w
    else if bool_decide (take 3 (inv_args i) = ["stack"; "output"; "--json"])
    then masked_doc w
    else "done" in
  (Ok {| stdout := out; stderr := "" |}, w).

Definition quoted (s : string) : string :=
  let dq := Ascii.ascii_of_nat 34 in String dq s ++ String dq "".

Definition two_updates : string :=
  "[{" ++ quoted "version" ++ ":2},{" ++ quoted "version" ++ ":1}]".
Definition masked_outputs : string :=
  "{" ++ quoted "password" ++ ":" ++ quoted "[secret]" ++ ","
      ++ quoted "url" ++ ":" ++ quoted "https://example.test" ++ "}".
Definition plaintext_outputs : string :=
  "{" ++ quoted "password" ++ ":" ++ quoted "hunter2" ++ ","
      ++ quoted "url" ++ ":" ++ quoted "https://example.test" ++ "}".

(** A parser that knows the documents above. *)
Definition parse (s : string) : result Json :=
  if bool_decide (s = "[]") then Ok (JArray [])
  else if bool_decide (s = two_updates) then
    Ok (JArray [JObject {[ "version" := JNumber 2%Z ]}; JObject {[ "version" := JNumber 1%Z ]}])
  else if bool_decide (s = masked_outputs) then
    Ok (JObject {[ "password" := JString "[secret]"; "url" := JString "https://example.test" ]})
  else if bool_decide (s = plaintext_outputs) then
    Ok (JObject {[ "password" := JString "hunter2"; "url" := JString "https://example.test" ]})
  else Err (SyntaxError "Unexpected token").

Definition dev_world (has_program : bool) (history : string) : World :=
  {| stacks := ["dev"]; current := None; registered := has_program;
     history_doc := history; masked_doc := masked_outputs;
     plaintext_doc := plaintext_outputs |}.

Definition start (w : World) : State World unit := {| world := w; spawned := [] |}.

(** The stack "dev" exists and "prod" does not; the history is empty or
    holds two updates; a program is registered or not. *)
Definition idle : State World unit := start (dev_world false "[]").
Definition idle_registered : State World unit := start (dev_world true "[]").
Definition after_updates : State World unit := start (dev_world false two_updates).

Definition dev : Stack := {| name := "dev"; ready := Ok () |}.
Definition prod : Stack := {| name := "prod"; ready := Ok () |}.

Definition with_program : UpOptions.t unit unit :=
  {| UpOptions.parallel := None; UpOptions.message := None;
     UpOptions.expectNoChanges := None; UpOptions.replace := None;
     UpOptions.target := None; UpOptions.targetDependents := None;
     UpOptions.onOutput := None; UpOptions.program := Some () |}.

(** A dialer that refuses the empty address, and two programs. *)
Definition dial (address : string) : string + Deploytest.error :=
  if bool_decide (address = "")
  then inr (Deploytest.errors_New "grpc: no target address")
  else inl address.

Definition runtime (program : @Deploytest.ProgramFunc string string)
    : @Deploytest.languageRuntime string string string :=
  Deploytest.NewLanguageRuntime program [Deploytest.EnableSecrets true].

Definition quiet_program : @Deploytest.ProgramFunc string string :=
  λ _ _, None.

Definition failing_program : @Deploytest.ProgramFunc string string :=
  λ _ _, Some (Deploytest.errors_New "resource registration failed").

(** A workspace whose environment, argument and post-command steps can be
    made to fail, and an engine that fails every command. *)
Definition flaky (fail_envs fail_args fail_post : bool) : Workspace World unit := {|
  createStack := createStack workspace;
  selectStack := selectStack workspace;
  getProgram := getProgram workspace;
  getPulumiHome w := Some "";
  getEnvVars w :=
    if fail_envs then (Err (Error "cannot read environment"), w)
    else (Ok {[ "PULUMI_HOME" := "/override" ]}, w);
  serializeArgsForOp name w :=
    if fail_args then (Err (Error "cannot serialize arguments"), w)
    else (Ok ["--stack"; name], w);
  getWorkDir := getWorkDir workspace;
  postCommandCallback name w :=
    if fail_post then (Err (Error "cannot save settings"), w) else (Ok (), w);
|}.

Definition broken_engine (i : Invocation unit) (w : World)
    : result CommandResult * World :=
  (Err (Error "exit status 255"), w).

Definition quiet_engine (i : Invocation unit) (w : World)
    : result CommandResult * World :=
  (Ok {| stdout := "done"; stderr := "" |}, w).

Definition mute_failing_program : @Deploytest.ProgramFunc string string :=
  λ _ _, Some (Deploytest.errors_New "").

(** A parser that also knows [null] and the empty object. *)
Definition parse_more (s : string) : result Json :=
  if bool_decide (s = "null") then Ok JNull
  else if bool_decide (s = "{}") then Ok (JObject ∅)
  else parse s.

Definition world_printing (history masked plaintext : string) : World :=
  {| stacks := ["dev"]; current := None; registered := false;
     history_doc := history; masked_doc := masked; plaintext_doc := plaintext |}.

Definition with_sink : RefreshOptions.t unit :=
  {| RefreshOptions.parallel := None; RefreshOptions.message := Some "nightly";
     RefreshOptions.expectNoChanges := None; RefreshOptions.target := None;
     RefreshOptions.onOutput := Some () |}.

Definition up_with_sink : UpOptions.t unit unit :=
  {| UpOptions.parallel := Some 4%Z; UpOptions.message := None;
     UpOptions.expectNoChanges := None; UpOptions.replace := None;
     UpOptions.target := None; UpOptions.targetDependents := None;
     UpOptions.onOutput := Some (); UpOptions.program := None |}.

End Demo.

Import JS Automation FlagTable.

(** * Properties *)

Ltac unfold_async :=
  unfold mbind, mret, Async_bind, Async_ret, result_bind_inst, result_ret,
    bind, ret, throw, catch, promise, await, sync, call, read, spawn,
    result_bind.

Ltac use_outcome :=
  match goal with
  | H : ?x = (_, _) |- context [?x] => rewrite H
  | H : ?x = Ok _ |- context [?x] => rewrite H
  | H : ?x = Err _ |- context [?x] => rewrite H
  end.

Ltac async_cases :=
  unfold_async; simpl;
  repeat (first [use_outcome | case_match]; simplify_eq/=); try done.

(** ** Construction *)

Section Construction.
Context {World PulumiFn OutputSink : Type}.
Context (workspace : Workspace World PulumiFn).

Local Abbreviation constructor := (constructor (OutputSink := OutputSink) workspace).
Local Abbreviation at_world := (λ (s : State World OutputSink) w,
  {| world := w; spawned := spawned s |}).

(** C2.  With mode "create" a failure of [createStack] is the outcome of
    the construction, with mode "select" a failure of [selectStack] is; with
    mode "upsert" [createStack] is attempted first and, when it fails with
    any error, [selectStack] is called and its outcome, success or failure,
    is the outcome of the construction; when it succeeds no select is made.
    Any other mode makes the constructor throw the "unexpected Stack
    creation mode" error. *)
Theorem construction_modes (name : string) (s : State World OutputSink) :
  (∀ e w, createStack workspace name (world s) = (Err e, w) →
     constructor name "create" s
       = (Ok {| name := name; ready := Err e |}, at_world s w)
     ∧ Create workspace name s = (Err e, at_world s w))
  ∧ (∀ e w, selectStack workspace name (world s) = (Err e, w) →
     constructor name "select" s
       = (Ok {| name := name; ready := Err e |}, at_world s w)
     ∧ Select workspace name s = (Err e, at_world s w))
  ∧ (∀ e w r w',
     createStack workspace name (world s) = (Err e, w) →
     selectStack workspace name w = (r, w') →
     constructor name "upsert" s
       = (Ok {| name := name; ready := r |}, at_world s w')
     ∧ Upsert workspace name s
       = (match r with
          | Ok _ => Ok {| name := name; ready := r |}
          | Err e' => Err e'
          end, at_world s w'))
  ∧ (∀ w, createStack workspace name (world s) = (Ok (), w) →
     constructor name "upsert" s
       = (Ok {| name := name; ready := Ok () |}, at_world s w))
  ∧ (∀ mode, mode ≠ "create" → mode ≠ "select" → mode ≠ "upsert" →
     constructor name mode s
       = (Err (Error ("unexpected Stack creation mode: " ++ mode)), s)).
Proof.
  unfold Create, Select, Upsert, Automation.constructor.
  repeat split; intros; async_cases.
Qed.

End Construction.

Lemma construction_modes_witness :
  (Create Demo.workspace "dev" Demo.idle).1
    = Err (Error "stack already exists: dev")
  ∧ (Select Demo.workspace "prod" Demo.idle).1
    = Err (Error "no stack named: prod")
  ∧ (Upsert Demo.workspace "dev" Demo.idle).1 = Ok Demo.dev
  ∧ (Automation.constructor Demo.workspace "prod" "upsert" Demo.idle).1
    = Ok Demo.prod
  ∧ (Automation.constructor Demo.workspace "prod" "delete" Demo.idle).1
    = Err (Error "unexpected Stack creation mode: delete").
Proof.
  destruct (construction_modes Demo.workspace "dev" Demo.idle)
    as (Hcreate & _ & Hupsert & _ & _).
  destruct (construction_modes Demo.workspace "prod" Demo.idle)
    as (_ & Hselect & _ & Hfresh & Hmode).
  split; [|split; [|split; [|split]]].
  - by erewrite (proj2 (Hcreate _ _ eq_refl)).
  - by erewrite (proj2 (Hselect _ _ eq_refl)).
  - by erewrite (proj2 (Hupsert _ _ _ _ eq_refl eq_refl)).
  - by erewrite (Hfresh _ eq_refl).
  - by rewrite (Hmode "delete").
Defined.

(** ** Outputs *)




Section Outputs.
Context {World PulumiFn OutputSink : Type}.
Context (workspace : Workspace World PulumiFn).
Context (cmd_runPulumiCmd :
  Invocation OutputSink → World → result CommandResult * World).
Context (JSON_parse : string → result Json).

Local Abbreviation runPulumiCmd := (runPulumiCmd workspace cmd_runPulumiCmd).
Local Abbreviation outputs := (outputs workspace cmd_runPulumiCmd JSON_parse).


End Outputs.


(** ** History *)

Lemma info_of_array (records : list Json) :
  info_of (JArray records) = Ok (head records).
Proof.
  unfold info_of. destruct records as [|first rest]; [done|].
  simpl. unfold indexed, index_of_key. simpl.
  reflexivity.
Qed.

Section History.
Context {World PulumiFn OutputSink : Type}.
Context (workspace : Workspace World PulumiFn).
Context (cmd_runPulumiCmd :
  Invocation OutputSink → World → result CommandResult * World).
Context (JSON_parse : string → result Json).

Local Abbreviation runPulumiCmd := (runPulumiCmd workspace cmd_runPulumiCmd).
Local Abbreviation history := (history workspace cmd_runPulumiCmd JSON_parse).
Local Abbreviation info := (info workspace cmd_runPulumiCmd JSON_parse).

(** C4.  When the history command prints an array of records, [history()]
    returns that array as parsed, in the order printed, and [info()]
    returns its first element: [undefined] when the array is empty, the
    element itself when it is not. *)
Theorem history_verbatim_info_first (this : Stack) (s s1 : State World OutputSink)
    (printed : CommandResult) (records : list UpdateSummary) :
  runPulumiCmd this ["history"; "--json"; "--show-secrets"] None s
    = (Ok printed, s1) →
  JSON_parse (stdout printed) = Ok (JArray records) →
  history this s = (Ok (JArray records), s1)
  ∧ info this s = (Ok (head records), s1)
  ∧ (records = [] → info this s = (Ok None, s1))
  ∧ (∀ first rest, records = first :: rest → info this s = (Ok (Some first), s1)).
Proof.
  intros Hcmd Hparse.
  assert (Hhistory : history this s = (Ok (JArray records), s1)).
  { unfold Automation.history. unfold_async. by rewrite Hcmd, Hparse. }
  assert (Hinfo : info this s = (Ok (head records), s1)).
  { unfold Automation.info. unfold_async. fold history.
    by rewrite Hhistory, info_of_array. }
  split; [exact Hhistory|]. split; [exact Hinfo|].
  split; [by intros ->|by intros first rest ->].
Qed.

End History.

Lemma history_verbatim_info_first_witness :
  (history Demo.workspace Demo.engine Demo.parse Demo.dev Demo.after_updates).1
    = Ok (JArray [JObject {[ "version" := JNumber 2%Z ]};
                  JObject {[ "version" := JNumber 1%Z ]}])
  ∧ (info Demo.workspace Demo.engine Demo.parse Demo.dev Demo.after_updates).1
    = Ok (Some (JObject {[ "version" := JNumber 2%Z ]})).
Proof.
  edestruct (history_verbatim_info_first Demo.workspace Demo.engine Demo.parse
    Demo.dev Demo.after_updates) as (Hhistory & Hinfo & _);
    [vm_compute; reflexivity..|].
  by rewrite Hhistory, Hinfo.
Defined.

(** ** The argument list *)

Section Arguments.
Context {PulumiFn OutputSink : Type}.

Lemma push_message_flags message args :
  push_message message args = args ++ message_flags message.
Proof.
  destruct message as [m|]; simpl; [destruct (truthy_string m)|];
    by rewrite ?app_nil_r.
Qed.

Lemma push_switch_flags flag field args :
  push_switch flag field args = args ++ switch_flags flag field.
Proof. destruct field as [[]|]; simpl; by rewrite ?app_nil_r. Qed.

Lemma push_each_flags flag urns args :
  push_each flag urns args = args ++ repeated_flags flag urns.
Proof.
  destruct urns as [us|]; simpl; [|by rewrite app_nil_r].
  revert args. induction us as [|u us IH]; intros args; simpl.
  - by rewrite app_nil_r.
  - rewrite IH. by rewrite <- app_assoc.
Qed.

Lemma push_parallel_flags parallel args :
  push_parallel parallel args = args ++ parallel_flags parallel.
Proof.
  destruct parallel as [n|]; simpl; [destruct (truthy_number n)|];
    by rewrite ?app_nil_r.
Qed.

Ltac to_flags :=
  rewrite ?push_message_flags, ?push_switch_flags, ?push_each_flags,
    ?push_parallel_flags, <- ?app_assoc.

Lemma up_options_flags (opts : option (UpOptions.t PulumiFn OutputSink))
    program args :
  up_options opts program args
    = (set_program (opts ≫= UpOptions.program) program, args ++ up_flags opts).
Proof.
  destruct opts as [o|]; simpl; [|by rewrite app_nil_r]. by to_flags.
Qed.

Lemma preview_options_flags (opts : option (PreviewOptions.t PulumiFn))
    program args :
  preview_options opts program args
    = (set_program (opts ≫= PreviewOptions.program) program,
       args ++ preview_flags opts).
Proof.
  destruct opts as [o|]; simpl; [|by rewrite app_nil_r]. by to_flags.
Qed.

Lemma refresh_options_flags (opts : option (RefreshOptions.t OutputSink)) args :
  refresh_options opts args = args ++ refresh_flags opts.
Proof.
  destruct opts as [o|]; simpl; [|by rewrite app_nil_r]. by to_flags.
Qed.

Lemma destroy_options_flags (opts : option (DestroyOptions.t OutputSink)) args :
  destroy_options opts args = args ++ destroy_flags opts.
Proof.
  destruct opts as [o|]; simpl; [|by rewrite app_nil_r]. by to_flags.
Qed.

(** C5.  Each method appends to its argument list the flags of its option
    fields in the fixed order message, expectNoChanges, replace, target,
    targetDependents, parallel (each method over the fields its options
    type has); an absent field and an absent options object contribute
    nothing; a non-empty message, a true switch and a non-zero parallel
    contribute the flags of the table; [replace] and [target] contribute
    the flag once per element in input order.  With [target] equal to
    ["urn:a"; "urn:b"] and no other field the list built is the base list
    followed by --target urn:a --target urn:b. *)
Theorem option_flags_in_fixed_order :
  (∀ (o : UpOptions.t PulumiFn OutputSink) program args,
     (up_options (Some o) program args).2
       = args ++ message_flags (UpOptions.message o)
              ++ switch_flags "--expect-no-changes" (UpOptions.expectNoChanges o)
              ++ repeated_flags "--replace" (UpOptions.replace o)
              ++ repeated_flags "--target" (UpOptions.target o)
              ++ switch_flags "--target-dependents" (UpOptions.targetDependents o)
              ++ parallel_flags (UpOptions.parallel o))
  ∧ (∀ (o : PreviewOptions.t PulumiFn) program args,
     (preview_options (Some o) program args).2
       = args ++ message_flags (PreviewOptions.message o)
              ++ switch_flags "--expect-no-changes" (PreviewOptions.expectNoChanges o)
              ++ repeated_flags "--replace" (PreviewOptions.replace o)
              ++ repeated_flags "--target" (PreviewOptions.target o)
              ++ switch_flags "--target-dependents" (PreviewOptions.targetDependents o)
              ++ parallel_flags (PreviewOptions.parallel o))
  ∧ (∀ (o : RefreshOptions.t OutputSink) args,
     refresh_options (Some o) args
       = args ++ message_flags (RefreshOptions.message o)
              ++ switch_flags "--expect-no-changes" (RefreshOptions.expectNoChanges o)
              ++ repeated_flags "--target" (RefreshOptions.target o)
              ++ parallel_flags (RefreshOptions.parallel o))
  ∧ (∀ (o : DestroyOptions.t OutputSink) args,
     destroy_options (Some o) args
       = args ++ message_flags (DestroyOptions.message o)
              ++ repeated_flags "--target" (DestroyOptions.target o)
              ++ switch_flags "--target-dependents" (DestroyOptions.targetDependents o)
              ++ parallel_flags (DestroyOptions.parallel o))
  ∧ (∀ (program : option PulumiFn) args,
     (up_options (OutputSink := OutputSink) None program args).2 = args
     ∧ (preview_options None program args).2 = args
     ∧ refresh_options (OutputSink := OutputSink) None args = args
     ∧ destroy_options (OutputSink := OutputSink) None args = args)
  ∧ (∀ flag,
     message_flags None = [] ∧ switch_flags flag None = []
     ∧ repeated_flags flag None = [] ∧ parallel_flags None = [])
  ∧ (∀ flag c m p,
     message_flags (Some (String c m)) = ["--message"; String c m]
     ∧ switch_flags flag (Some true) = [flag]
     ∧ parallel_flags (Some (Z.pos p)) = ["--parallel"; toString (Z.pos p)]
     ∧ parallel_flags (Some (Z.neg p)) = ["--parallel"; toString (Z.neg p)])
  ∧ (∀ flag u us,
     repeated_flags flag (Some []) = []
     ∧ repeated_flags flag (Some (u :: us))
         = flag :: u :: repeated_flags flag (Some us))
  ∧ (∀ program : option PulumiFn,
     (up_options (OutputSink := OutputSink)
        (Some (up_only_target ["urn:a"; "urn:b"])) program
        ["up"; "--yes"; "--skip-preview"]).2
       = ["up"; "--yes"; "--skip-preview"; "--target"; "urn:a"; "--target"; "urn:b"]
     ∧ (preview_options (Some (preview_only_target ["urn:a"; "urn:b"])) program
          ["preview"]).2
       = ["preview"; "--target"; "urn:a"; "--target"; "urn:b"]
     ∧ refresh_options (OutputSink := OutputSink)
         (Some (refresh_only_target ["urn:a"; "urn:b"]))
         ["refresh"; "--yes"; "--skip-preview"]
       = ["refresh"; "--yes"; "--skip-preview"; "--target"; "urn:a"; "--target"; "urn:b"]
     ∧ destroy_options (OutputSink := OutputSink)
         (Some (destroy_only_target ["urn:a"; "urn:b"]))
         ["destroy"; "--yes"; "--skip-preview"]
       = ["destroy"; "--yes"; "--skip-preview"; "--target"; "urn:a"; "--target"; "urn:b"]).
Proof.
  repeat split; intros; simpl; to_flags; reflexivity.
Qed.


End Arguments.

(** ** The lifecycle operations *)

Section Lifecycle.
Context {World PulumiFn OutputSink : Type}.
Context (workspace : Workspace World PulumiFn).
Context (cmd_runPulumiCmd :
  Invocation OutputSink → World → result CommandResult * World).
Context (JSON_parse : string → result Json).

Local Abbreviation select := (λ this : Stack,
  call (OutputSink := OutputSink) (selectStack workspace (name this))).
Local Abbreviation runPulumiCmd := (runPulumiCmd workspace cmd_runPulumiCmd).
Local Abbreviation history := (history workspace cmd_runPulumiCmd JSON_parse).
Local Abbreviation info := (info workspace cmd_runPulumiCmd JSON_parse).
Local Abbreviation outputs := (outputs workspace cmd_runPulumiCmd JSON_parse).
Local Abbreviation summarize := (summarize workspace cmd_runPulumiCmd JSON_parse).
Local Abbreviation up_run := (up_run workspace cmd_runPulumiCmd).
Local Abbreviation preview_run := (preview_run workspace cmd_runPulumiCmd).
Local Abbreviation refresh_run := (refresh_run workspace cmd_runPulumiCmd).
Local Abbreviation destroy_run := (destroy_run workspace cmd_runPulumiCmd).
Local Abbreviation up := (up workspace cmd_runPulumiCmd JSON_parse).
Local Abbreviation preview := (preview workspace cmd_runPulumiCmd JSON_parse).
Local Abbreviation refresh := (refresh workspace cmd_runPulumiCmd JSON_parse).
Local Abbreviation destroy := (destroy workspace cmd_runPulumiCmd JSON_parse).

Local Abbreviation NYI := (Error "NYI: inline programs").

(** *** The inline program *)

Lemma up_run_inline (this : Stack) opts p (s : State World OutputSink) :
  set_program (opts ≫= UpOptions.program) (getProgram workspace (world s)) = Some p →
  up_run this opts s = (select this;; throw NYI) s.
Proof.
  intros Hp. unfold Automation.up_run. unfold_async.
  destruct (selectStack workspace (name this) (world s)) as [[[]|e] w]; [|done].
  by rewrite up_options_flags, Hp.
Qed.

Lemma preview_run_inline (this : Stack) opts p (s : State World OutputSink) :
  set_program (opts ≫= PreviewOptions.program) (getProgram workspace (world s))
    = Some p →
  preview_run this opts s = (select this;; throw NYI) s.
Proof.
  intros Hp. unfold Automation.preview_run. unfold_async.
  destruct (selectStack workspace (name this) (world s)) as [[[]|e] w]; [|done].
  by rewrite preview_options_flags, Hp.
Qed.

Lemma up_inline (this : Stack) opts p (s : State World OutputSink) :
  set_program (opts ≫= UpOptions.program) (getProgram workspace (world s)) = Some p →
  up this opts s = (select this;; throw NYI) s.
Proof.
  intros Hp. unfold Automation.up. unfold mbind at 1, Async_bind, bind.
  rewrite (up_run_inline this opts p s Hp). unfold_async.
  by destruct (selectStack workspace (name this) (world s)) as [[[]|e] w].
Qed.

Lemma preview_inline (this : Stack) opts p (s : State World OutputSink) :
  set_program (opts ≫= PreviewOptions.program) (getProgram workspace (world s))
    = Some p →
  preview this opts s = (select this;; throw NYI) s.
Proof.
  intros Hp. unfold Automation.preview. unfold mbind at 1, Async_bind, bind.
  rewrite (preview_run_inline this opts p s Hp). unfold_async.
  by destruct (selectStack workspace (name this) (world s)) as [[[]|e] w].
Qed.

(** C3, amended.  When a program is present for [up] or [preview], from
    the options or from the workspace, the operation never invokes the
    command endpoint.  If the select at its start succeeds, the kind
    becomes "auto.inline" and the operation fails with the error
    "NYI: inline programs"; if that select fails, the operation fails
    with the select's error. *)
Theorem inline_program_not_implemented (this : Stack) (s : State World OutputSink) :
  (∀ opts p,
     set_program (opts ≫= UpOptions.program) (getProgram workspace (world s))
       = Some p →
     spawned (up this opts s).2 = spawned s
     ∧ (∀ s1, select this s = (Ok (), s1) →
          up this opts s = (Err NYI, s1)
          ∧ inline_check
              (up_options opts (getProgram workspace (world s))
                 ["up"; "--yes"; "--skip-preview"]).1 execKind_local
            = ("auto.inline", Some NYI))
     ∧ (∀ e s1, select this s = (Err e, s1) → up this opts s = (Err e, s1)))
  ∧ (∀ opts p,
     set_program (opts ≫= PreviewOptions.program) (getProgram workspace (world s))
       = Some p →
     spawned (preview this opts s).2 = spawned s
     ∧ (∀ s1, select this s = (Ok (), s1) →
          preview this opts s = (Err NYI, s1)
          ∧ inline_check
              (preview_options opts (getProgram workspace (world s)) ["preview"]).1
              execKind_local
            = ("auto.inline", Some NYI))
     ∧ (∀ e s1, select this s = (Err e, s1) → preview this opts s = (Err e, s1))).
Proof.
  split; intros opts p Hp.
  - rewrite (up_inline this opts p s Hp), up_options_flags, Hp. simpl.
    unfold_async.
    destruct (selectStack workspace (name this) (world s)) as [[[]|e] w];
      repeat split; intros; by simplify_eq.
  - rewrite (preview_inline this opts p s Hp), preview_options_flags, Hp. simpl.
    unfold_async.
    destruct (selectStack workspace (name this) (world s)) as [[[]|e] w];
      repeat split; intros; by simplify_eq.
Qed.

(** C8, amended.  When the workspace has a registered program and the
    select at the start of the operation succeeds, [up] and [preview] fail
    with the error "NYI: inline programs" whatever the options are: with
    no options object, and with an options object that has no program. *)
Theorem registered_program_not_implemented (this : Stack)
    (s s1 : State World OutputSink) (p : PulumiFn) :
  getProgram workspace (world s) = Some p →
  select this s = (Ok (), s1) →
  (∀ opts, up this opts s = (Err NYI, s1))
  ∧ (∀ opts, preview this opts s = (Err NYI, s1))
  ∧ up this None s = (Err NYI, s1)
  ∧ preview this None s = (Err NYI, s1).
Proof.
  intros Hp Hsel.
  assert (Hup : ∀ opts, up this opts s = (Err NYI, s1)).
  { intros opts.
    assert (∃ q, set_program (opts ≫= UpOptions.program)
              (getProgram workspace (world s)) = Some q) as [q Hq].
    { rewrite Hp. destruct (opts ≫= UpOptions.program); eauto. }
    rewrite (up_inline this opts q s Hq).
    unfold mbind, Async_bind, bind. by rewrite Hsel. }
  assert (Hpreview : ∀ opts, preview this opts s = (Err NYI, s1)).
  { intros opts.
    assert (∃ q, set_program (opts ≫= PreviewOptions.program)
              (getProgram workspace (world s)) = Some q) as [q Hq].
    { rewrite Hp. destruct (opts ≫= PreviewOptions.program); eauto. }
    rewrite (preview_inline this opts q s Hq).
    unfold mbind, Async_bind, bind. by rewrite Hsel. }
  auto.
Qed.

(** *** The summary of an empty history *)




(** *** The invocations of an operation *)

Lemma grows_bind {A B} (m : Async World OutputSink A)
    (f : A → Async World OutputSink B) :
  grows m → (∀ a, grows (f a)) → grows (m ≫= f).
Proof.
  intros Hm Hf s. specialize (Hm s). unfold mbind, Async_bind, bind.
  destruct (m s) as [[a|e] s']; simpl in *; [|done].
  etrans; [exact Hm|apply Hf].
Qed.

Lemma grows_promise {A} (m : Async World OutputSink A) :
  grows m → grows (promise m).
Proof.
  intros Hm s. specialize (Hm s). unfold promise. by destruct (m s).
Qed.

Lemma grows_pure {A} (m : Async World OutputSink A) :
  (∀ s, spawned (m s).2 = spawned s) → grows m.
Proof. intros Hm s. by rewrite Hm. Qed.

Lemma call_silent {A} (f : World → result A * World) (s : State World OutputSink) :
  spawned (call f s).2 = spawned s.
Proof. unfold call. by destruct (f (world s)). Qed.

Lemma runPulumiCmd_opens (this : Stack) args onOutput :
  opens_with args (runPulumiCmd this args onOutput).
Proof.
  intros s. unfold Automation.runPulumiCmd. unfold_async. simpl.
  destruct (getEnvVars workspace (world s)) as [[envs|e] w1]; simpl;
    [|left; eauto].
  destruct (serializeArgsForOp workspace (name this) w1) as [[extra|e] w2];
    simpl; [|left; eauto].
  right.
  destruct (cmd_runPulumiCmd _ w2) as [[printed|e] w3]; simpl;
    [destruct (postCommandCallback workspace (name this) w3) as [[[]|e] w4]|];
    simpl; by eexists _, [], extra.
Qed.

Lemma opens_with_grows {A} args (m : Async World OutputSink A) :
  opens_with args m → grows m.
Proof.
  intros Hm s. destruct (Hm s) as [[-> _]|(i & later & extra & -> & _)];
    [done|by apply prefix_app_r].
Qed.




Lemma history_grows (this : Stack) : grows (history this).
Proof.
  apply grows_bind; [apply (opens_with_grows _ _ (runPulumiCmd_opens _ _ _))|].
  intros printed. apply grows_bind; by intros; apply grows_pure.
Qed.

Lemma info_grows (this : Stack) : grows (info this).
Proof.
  apply grows_bind; [apply history_grows|]. by intros; apply grows_pure.
Qed.

Lemma outputs_grows (this : Stack) : grows (outputs this).
Proof.
  apply grows_bind; [apply grows_pure, call_silent|]. intros _.
  apply grows_bind;
    [apply grows_promise, (opens_with_grows _ _ (runPulumiCmd_opens _ _ _))|].
  intros maskedPromise. apply grows_bind;
    [apply grows_promise, (opens_with_grows _ _ (runPulumiCmd_opens _ _ _))|].
  intros plaintextPromise.
  apply grows_bind; [by apply grows_pure|]. intros masked.
  apply grows_bind; by intros; apply grows_pure.
Qed.












End Lifecycle.

Lemma inline_program_not_implemented_witness :
  (up Demo.workspace Demo.engine Demo.parse Demo.dev (Some Demo.with_program)
     Demo.idle).1 = Err (Error "NYI: inline programs")
  ∧ spawned (up Demo.workspace Demo.engine Demo.parse Demo.dev
               (Some Demo.with_program) Demo.idle).2 = [].
Proof.
  destruct (proj1 (inline_program_not_implemented Demo.workspace Demo.engine
    Demo.parse Demo.dev Demo.idle) (Some Demo.with_program) () eq_refl)
    as (Hsilent & Hselected & _).
  split; [|exact Hsilent].
  by rewrite (proj1 (Hselected
    (call (selectStack Demo.workspace "dev") Demo.idle).2 eq_refl)).
Defined.

(** The claim C3 as it is written fails where the select at the start of
    the operation fails: the stack "prod" does not exist, the options carry
    a program, and [up] fails with the select's error. *)
Lemma inline_program_select_failure :
  set_program (Some Demo.with_program ≫= UpOptions.program)
    (getProgram Demo.workspace (world Demo.idle)) = Some ()
  ∧ up Demo.workspace Demo.engine Demo.parse Demo.prod (Some Demo.with_program)
      Demo.idle = (Err (Error "no stack named: prod"), Demo.idle)
  ∧ (up Demo.workspace Demo.engine Demo.parse Demo.prod (Some Demo.with_program)
       Demo.idle).1 ≠ Err (Error "NYI: inline programs").
Proof. by vm_compute. Qed.

Lemma registered_program_not_implemented_witness :
  (up Demo.workspace Demo.engine Demo.parse Demo.dev None Demo.idle_registered).1
    = Err (Error "NYI: inline programs")
  ∧ (preview Demo.workspace Demo.engine Demo.parse Demo.dev None
       Demo.idle_registered).1 = Err (Error "NYI: inline programs").
Proof.
  destruct (registered_program_not_implemented Demo.workspace Demo.engine
    Demo.parse Demo.dev Demo.idle_registered
    (call (selectStack Demo.workspace "dev") Demo.idle_registered).2 ()
    eq_refl eq_refl) as (_ & _ & Hup & Hpreview).
  by rewrite Hup, Hpreview.
Defined.

(** The claim C8 as it is written fails in the same way: a program is
    registered, no options are passed, the stack "prod" does not exist,
    and [up] fails with the select's error. *)
Lemma registered_program_select_failure :
  getProgram Demo.workspace (world Demo.idle_registered) = Some ()
  ∧ up Demo.workspace Demo.engine Demo.parse Demo.prod None Demo.idle_registered
    = (Err (Error "no stack named: prod"), Demo.idle_registered)
  ∧ (up Demo.workspace Demo.engine Demo.parse Demo.prod None
       Demo.idle_registered).1 ≠ Err (Error "NYI: inline programs").
Proof. by vm_compute. Qed.



(** ** The language runtime *)

Section LanguageRuntime.
Import Deploytest.
Context {RunInfo PluginInfo ClientConn ResourceMonitorClient : Type}.
Context (MonitorAddress : RunInfo → string).
Context (grpc_Dial : string → ClientConn + error).
Context (NewResourceMonitorClient : ClientConn → ResourceMonitorClient).

Local Abbreviation Run :=
  (Run (PluginInfo := PluginInfo) MonitorAddress grpc_Dial NewResourceMonitorClient).

(** C7.  When the dial succeeds and the program returns nil, [Run] returns
    the empty string and no error; when the program returns an error,
    [Run] returns that error's message and no error; when the dial fails,
    [Run] returns an error that wraps the dial error with the message
    "could not connect to resource monitor", so a connection failure is the
    only outcome with a non-nil error. *)
Theorem Run_outcomes (p : languageRuntime) (info : RunInfo) :
  (∀ conn,
     grpc_Dial (MonitorAddress info) = inl conn →
     program p info {| resmon := NewResourceMonitorClient conn;
                       rm_enableSecrets := enableSecrets p |} = None →
     Run p info = ("", None))
  ∧ (∀ conn e,
     grpc_Dial (MonitorAddress info) = inl conn →
     program p info {| resmon := NewResourceMonitorClient conn;
                       rm_enableSecrets := enableSecrets p |} = Some e →
     Run p info = (Deploytest.Error e, None))
  ∧ (∀ err,
     grpc_Dial (MonitorAddress info) = inr err →
     Run p info
       = ("", Some (errors_Wrapf err "could not connect to resource monitor"))
     ∧ Deploytest.Error (errors_Wrapf err "could not connect to resource monitor")
       = ("could not connect to resource monitor: " ++ Deploytest.Error err)%string)
  ∧ (∀ conn, grpc_Dial (MonitorAddress info) = inl conn → (Run p info).2 = None).
Proof.
  unfold Deploytest.Run.
  repeat split; intros; repeat (first [use_outcome | case_match]; simplify_eq/=);
    try done.
Qed.

End LanguageRuntime.

Lemma Run_outcomes_witness :
  Deploytest.Run id Demo.dial id (Demo.runtime Demo.quiet_program) "127.0.0.1:4000"
    = ("", None)
  ∧ Deploytest.Run id Demo.dial id (Demo.runtime Demo.failing_program) "127.0.0.1:4000"
    = ("resource registration failed", None)
  ∧ Deploytest.Run id Demo.dial id (Demo.runtime Demo.quiet_program) ""
    = ("", Some (Deploytest.errors_Wrapf (Deploytest.errors_New "grpc: no target address")
                   "could not connect to resource monitor")).
Proof.
  destruct (Run_outcomes (PluginInfo := string) id Demo.dial id
    (Demo.runtime Demo.quiet_program) "127.0.0.1:4000") as (Hnil & _).
  destruct (Run_outcomes (PluginInfo := string) id Demo.dial id
    (Demo.runtime Demo.failing_program) "127.0.0.1:4000") as (_ & Hfail & _).
  destruct (Run_outcomes (PluginInfo := string) id Demo.dial id
    (Demo.runtime Demo.quiet_program) "") as (_ & _ & Hdial & _).
  split; [|split].
  - exact (Hnil "127.0.0.1:4000" eq_refl eq_refl).
  - exact (Hfail "127.0.0.1:4000"
             (Deploytest.errors_New "resource registration failed") eq_refl eq_refl).
  - exact (proj1 (Hdial (Deploytest.errors_New "grpc: no target address") eq_refl)).
Defined.

(** * Further properties of the two files *)

(** ** Qualified stack names *)

Import Names.

Lemma append_slash_inj (a a' r r' : string) :
  no_slash a = true → no_slash a' = true →
  a +:+ "/" +:+ r = a' +:+ "/" +:+ r' → a = a' ∧ r = r'.
Proof.
  revert a'. induction a as [|c a IH]; intros [|c' a'] Ha Ha' Heq;
    simpl in *.
  - by simplify_eq.
  - injection Heq as <- _. by rewrite Ascii.eqb_refl in Ha'.
  - injection Heq as -> _. by rewrite Ascii.eqb_refl in Ha.
  - injection Heq as -> Heq.
    apply andb_true_iff in Ha as [_ Ha]. apply andb_true_iff in Ha' as [_ Ha'].
    destruct (IH a' Ha Ha' Heq) as [-> ->]. done.
Qed.

(** X1.  Qualified names do not collide: when neither the organisation nor
    the project holds a "/", two triples with the same qualified name are
    the same triple. *)
Theorem FullyQualifiedStackName_inj (org project stack org' project' stack' : string) :
  no_slash org = true → no_slash project = true →
  no_slash org' = true → no_slash project' = true →
  FullyQualifiedStackName org project stack
    = FullyQualifiedStackName org' project' stack' →
  org = org' ∧ project = project' ∧ stack = stack'.
Proof.
  unfold FullyQualifiedStackName. intros Ho Hp Ho' Hp' Heq.
  destruct (append_slash_inj _ _ _ _ Ho Ho' Heq) as [-> Hrest].
  by destruct (append_slash_inj _ _ _ _ Hp Hp' Hrest) as [-> ->].
Qed.

Lemma FullyQualifiedStackName_inj_witness :
  FullyQualifiedStackName "acme" "web" "dev/eu" = "acme/web/dev/eu"
  ∧ "acme" = "acme" ∧ "web" = "web" ∧ "dev/eu" = "dev/eu".
Proof.
  split; [reflexivity|].
  exact (FullyQualifiedStackName_inj "acme" "web" "dev/eu" "acme" "web" "dev/eu"
           eq_refl eq_refl eq_refl eq_refl eq_refl).
Defined.

(** ** Construction, continued *)

Section Factories.
Context {World PulumiFn OutputSink : Type}.
Context (workspace : Workspace World PulumiFn).

Local Abbreviation constructor := (constructor (OutputSink := OutputSink) workspace).
Local Abbreviation Create := (Create (OutputSink := OutputSink) workspace).
Local Abbreviation Select := (Select (OutputSink := OutputSink) workspace).
Local Abbreviation Upsert := (Upsert (OutputSink := OutputSink) workspace).


(** X3.  A Stack that [Create], [Select] or [Upsert] resolves with carries
    the requested name and a fulfilled [ready]. *)
Theorem factories_return_ready_stack (name : string) (s s' : State World OutputSink)
    (stack : Stack) :
  Create name s = (Ok stack, s')
  ∨ Select name s = (Ok stack, s')
  ∨ Upsert name s = (Ok stack, s') →
  Automation.name stack = name ∧ ready stack = Ok ().
Proof.
  unfold Automation.Create, Automation.Select, Automation.Upsert,
    Automation.constructor.
  intros [H|[H|H]]; revert H; unfold_async; simpl;
    repeat (case_match; simplify_eq/=); intros; simplify_eq/=; try done;
    by repeat match goal with u : () |- _ => destruct u end.
Qed.

End Factories.


Lemma factories_return_ready_stack_witness :
  name Demo.prod = "prod" ∧ ready Demo.prod = Ok ().
Proof.
  exact (factories_return_ready_stack Demo.workspace "prod" Demo.idle
           (Upsert Demo.workspace "prod" Demo.idle).2 Demo.prod
           (or_intror (or_intror eq_refl))).
Defined.

(** ** Running a command *)

Section Command.
Context {World PulumiFn OutputSink : Type}.
Context (workspace : Workspace World PulumiFn).
Context (cmd_runPulumiCmd :
  Invocation OutputSink → World → result CommandResult * World).

Local Abbreviation runPulumiCmd := (runPulumiCmd workspace cmd_runPulumiCmd).
Local Abbreviation at_world := (λ (s : State World OutputSink) w,
  {| world := w; spawned := spawned s |}).

(** Once the environment and the arguments of the workspace are read, the
    method is one invocation followed, on success, by the callback. *)
Lemma runPulumiCmd_spawn (this : Stack) args onOutput (s : State World OutputSink)
    envs w1 extra w2 :
  getEnvVars workspace (world s) = (Ok envs, w1) →
  serializeArgsForOp workspace (name this) w1 = (Ok extra, w2) →
  let i := {| inv_args := args ++ extra; inv_cwd := getWorkDir workspace w2;
              inv_envs := envs ∪ base_env (getPulumiHome workspace (world s));
              inv_onOutput := onOutput |} in
  runPulumiCmd this args onOutput s
    = match cmd_runPulumiCmd i w2 with
      | (Ok printed, w3) =>
          match postCommandCallback workspace (name this) w3 with
          | (Ok _, w4) => (Ok printed, {| world := w4; spawned := spawned s ++ [i] |})
          | (Err e, w4) => (Err e, {| world := w4; spawned := spawned s ++ [i] |})
          end
      | (Err e, w3) => (Err e, {| world := w3; spawned := spawned s ++ [i] |})
      end.
Proof.
  intros Henvs Hargs. unfold Automation.runPulumiCmd, base_env. unfold_async.
  simpl. rewrite Henvs. simpl. rewrite Hargs. simpl.
  destruct (getPulumiHome workspace (world s)) as [home|];
    [destruct (truthy_string home)|]; simpl;
    repeat (case_match; simplify_eq/=); done.
Qed.

Lemma runPulumiCmd_Ok (this : Stack) args onOutput (s s' : State World OutputSink)
    printed :
  runPulumiCmd this args onOutput s = (Ok printed, s') →
  ∃ i extra,
    spawned s' = spawned s ++ [i] ∧ inv_args i = args ++ extra
    ∧ inv_onOutput i = onOutput.
Proof.
  destruct (getEnvVars workspace (world s)) as [[envs|e] w1] eqn:Henvs.
  - destruct (serializeArgsForOp workspace (name this) w1) as [[extra|e] w2]
      eqn:Hargs.
    + rewrite (runPulumiCmd_spawn this args onOutput s envs w1 extra w2 Henvs Hargs).
      intros H. repeat (case_match; simplify_eq/=). eauto.
    + unfold Automation.runPulumiCmd. unfold_async. simpl.
      rewrite Henvs. simpl. by rewrite Hargs.
  - unfold Automation.runPulumiCmd. unfold_async. simpl. by rewrite Henvs.
Qed.

(** X4.  When the workspace delivers its environment and its arguments,
    [runPulumiCmd] makes exactly one invocation of the endpoint: its
    arguments are the caller's followed by the workspace's, its directory
    is the workspace's, its callback is the caller's, and its environment
    holds every variable of the workspace and, unless the workspace sets
    it, PULUMI_HOME when the workspace has a non-empty home. *)
Theorem runPulumiCmd_invocation (this : Stack) args onOutput
    (s : State World OutputSink) envs w1 extra w2 :
  getEnvVars workspace (world s) = (Ok envs, w1) →
  serializeArgsForOp workspace (name this) w1 = (Ok extra, w2) →
  ∃ i,
    spawned (runPulumiCmd this args onOutput s).2 = spawned s ++ [i]
    ∧ inv_args i = args ++ extra
    ∧ inv_cwd i = getWorkDir workspace w2
    ∧ inv_onOutput i = onOutput
    ∧ ∀ k, inv_envs i !! k =
        match envs !! k with
        | Some v => Some v
        | None =>
            match getPulumiHome workspace (world s) with
            | Some home =>
                if bool_decide (k = "PULUMI_HOME") && truthy_string home
                then Some home else None
            | None => None
            end
        end.
Proof.
  intros Henvs Hargs.
  rewrite (runPulumiCmd_spawn this args onOutput s envs w1 extra w2 Henvs Hargs).
  eexists. split; [by repeat (case_match; simplify_eq/=)|].
  repeat split. intros k. simpl. rewrite lookup_union.
  destruct (envs !! k) as [v|]; simpl.
  { by destruct (base_env _ !! k). }
  unfold base_env. destruct (getPulumiHome workspace (world s)) as [home|];
    [|by rewrite lookup_empty].
  destruct (truthy_string home); rewrite ?andb_false_r, ?andb_true_r;
    [|by rewrite lookup_empty].
  case_bool_decide as Hk; [subst; by rewrite lookup_insert_eq|].
  by rewrite lookup_insert_ne, lookup_empty.
Qed.

(** X5.  When the workspace fails to deliver its environment, or delivers
    it and fails to deliver its arguments, [runPulumiCmd] fails with that
    error and the endpoint is not invoked. *)
Theorem runPulumiCmd_setup_failure (this : Stack) args onOutput
    (s : State World OutputSink) :
  (∀ e w1, getEnvVars workspace (world s) = (Err e, w1) →
     runPulumiCmd this args onOutput s = (Err e, at_world s w1))
  ∧ (∀ envs w1 e w2,
     getEnvVars workspace (world s) = (Ok envs, w1) →
     serializeArgsForOp workspace (name this) w1 = (Err e, w2) →
     runPulumiCmd this args onOutput s = (Err e, at_world s w2)).
Proof.
  split; intros; unfold Automation.runPulumiCmd; async_cases.
Qed.

(** X6.  A command that fails is not followed by the post-command
    callback: the call fails with the command's error in the world the
    command left.  A callback that fails after a successful command makes
    the call fail with the callback's error, and the command's output is
    lost, although the invocation was made. *)
Theorem runPulumiCmd_late_failure (this : Stack) args onOutput
    (s : State World OutputSink) envs w1 extra w2 i :
  getEnvVars workspace (world s) = (Ok envs, w1) →
  serializeArgsForOp workspace (name this) w1 = (Ok extra, w2) →
  spawned (runPulumiCmd this args onOutput s).2 = spawned s ++ [i] →
  (∀ e w3, cmd_runPulumiCmd i w2 = (Err e, w3) →
     runPulumiCmd this args onOutput s
       = (Err e, {| world := w3; spawned := spawned s ++ [i] |}))
  ∧ (∀ printed w3 e w4,
     cmd_runPulumiCmd i w2 = (Ok printed, w3) →
     postCommandCallback workspace (name this) w3 = (Err e, w4) →
     runPulumiCmd this args onOutput s
       = (Err e, {| world := w4; spawned := spawned s ++ [i] |})).
Proof.
  intros Henvs Hargs.
  rewrite (runPulumiCmd_spawn this args onOutput s envs w1 extra w2 Henvs Hargs).
  intros Hi.
  assert (i = {| inv_args := args ++ extra; inv_cwd := getWorkDir workspace w2;
                 inv_envs := envs ∪ base_env (getPulumiHome workspace (world s));
                 inv_onOutput := onOutput |}) as ->.
  { revert Hi. repeat case_match; simpl; intros Hi;
      apply app_inv_head in Hi; by simplify_eq. }
  split; intros; by repeat (use_outcome; simpl).
Qed.

End Command.

Lemma runPulumiCmd_invocation_witness :
  ∃ i,
    spawned (runPulumiCmd Demo.workspace Demo.engine Demo.dev ["refresh"] None
               Demo.idle).2 = [i]
    ∧ inv_args i = ["refresh"; "--stack"; "dev"]
    ∧ inv_envs i !! "PULUMI_HOME" = Some "/home/pulumi"
    ∧ inv_envs i !! "PULUMI_SKIP_UPDATE_CHECK" = Some "1".
Proof.
  destruct (runPulumiCmd_invocation Demo.workspace Demo.engine Demo.dev
    ["refresh"] None Demo.idle _ _ _ _ eq_refl eq_refl)
    as (i & Hspawned & Hargs & _ & _ & Henvs).
  exists i. split; [exact Hspawned|]. split; [exact Hargs|].
  split; rewrite Henvs; reflexivity.
Defined.

Lemma runPulumiCmd_setup_failure_witness :
  (runPulumiCmd (Demo.flaky true false false) Demo.engine Demo.dev ["refresh"]
     None Demo.idle) = (Err (Error "cannot read environment"), Demo.idle)
  ∧ (runPulumiCmd (Demo.flaky false true false) Demo.engine Demo.dev ["refresh"]
     None Demo.idle) = (Err (Error "cannot serialize arguments"), Demo.idle).
Proof.
  split.
  - exact (proj1 (runPulumiCmd_setup_failure (Demo.flaky true false false)
      Demo.engine Demo.dev ["refresh"] None Demo.idle) _ _ eq_refl).
  - exact (proj2 (runPulumiCmd_setup_failure (Demo.flaky false true false)
      Demo.engine Demo.dev ["refresh"] None Demo.idle) _ _ _ _ eq_refl eq_refl).
Defined.

Lemma runPulumiCmd_late_failure_witness :
  (runPulumiCmd Demo.workspace Demo.broken_engine Demo.dev ["refresh"] None
     Demo.idle).1 = Err (Error "exit status 255")
  ∧ (runPulumiCmd (Demo.flaky false false true) Demo.quiet_engine Demo.dev
       ["refresh"] None Demo.idle).1 = Err (Error "cannot save settings").
Proof.
  split.
  - destruct (spawned (runPulumiCmd Demo.workspace Demo.broken_engine Demo.dev
      ["refresh"] None Demo.idle).2) as [|i [|j rest]] eqn:Hspawned;
      [vm_compute in Hspawned; discriminate Hspawned| |
       vm_compute in Hspawned; discriminate Hspawned].
    by rewrite (proj1 (runPulumiCmd_late_failure Demo.workspace
      Demo.broken_engine Demo.dev ["refresh"] None Demo.idle _ _ _ _ i
      eq_refl eq_refl Hspawned) _ _ eq_refl).
  - destruct (spawned (runPulumiCmd (Demo.flaky false false true)
      Demo.quiet_engine Demo.dev ["refresh"] None Demo.idle).2)
      as [|i [|j rest]] eqn:Hspawned;
      [vm_compute in Hspawned; discriminate Hspawned| |
       vm_compute in Hspawned; discriminate Hspawned].
    by rewrite (proj2 (runPulumiCmd_late_failure (Demo.flaky false false true)
      Demo.quiet_engine Demo.dev ["refresh"] None Demo.idle _ _ _ _ i
      eq_refl eq_refl Hspawned) _ _ _ _ eq_refl eq_refl).
Defined.

(** ** Queries *)

Lemma info_of_total (history : Json) :
  ∃ summary, info_of history = Ok summary.
Proof.
  unfold info_of.
  destruct history; simpl; repeat (case_match; simplify_eq/=); eauto.
Qed.

Lemma info_of_falsy (history : Json) :
  truthy history = false → info_of history = Ok None.
Proof. intros Hfalsy. unfold info_of. by rewrite Hfalsy. Qed.

Lemma outputs_of_empty (JSON_parse : string → result Json)
    (masked plaintext : string) (M : Json) :
  JSON_parse masked = Ok M → JSON_parse plaintext = Ok (JObject ∅) →
  outputs_of JSON_parse masked plaintext = Ok ∅.
Proof.
  intros HM HP. unfold outputs_of. rewrite HM, HP. simpl.
  by rewrite map_to_list_empty.
Qed.

Section Queries.
Context {World PulumiFn OutputSink : Type}.
Context (workspace : Workspace World PulumiFn).
Context (cmd_runPulumiCmd :
  Invocation OutputSink → World → result CommandResult * World).
Context (JSON_parse : string → result Json).

Local Abbreviation select := (λ this : Stack,
  call (OutputSink := OutputSink) (selectStack workspace (name this))).
Local Abbreviation runPulumiCmd := (runPulumiCmd workspace cmd_runPulumiCmd).
Local Abbreviation history := (history workspace cmd_runPulumiCmd JSON_parse).
Local Abbreviation info := (info workspace cmd_runPulumiCmd JSON_parse).
Local Abbreviation outputs := (outputs workspace cmd_runPulumiCmd JSON_parse).

(** X7.  [info()] adds no failure of its own to [history()]: whatever JSON
    value the history command prints, array or not, [info()] resolves, and
    for [null] and the other falsy values it resolves with [undefined]. *)
Theorem info_resolves_on_any_history (this : Stack) (s s1 : State World OutputSink)
    (value : Json) :
  history this s = (Ok value, s1) →
  (∃ summary, info this s = (Ok summary, s1))
  ∧ (truthy value = false → info this s = (Ok None, s1)).
Proof.
  intros Hhistory. unfold Automation.info. unfold mbind, Async_bind, bind.
  fold history. rewrite Hhistory. unfold sync, await. split.
  - destruct (info_of_total value) as [summary ->]. eauto.
  - intros Hfalsy. by rewrite (info_of_falsy value Hfalsy).
Qed.

(** X8.  A history command that fails, or prints what [JSON.parse]
    rejects, makes [history()] and [info()] fail with that error, in the
    state the command left. *)
Theorem history_failure_propagates (this : Stack) (s s1 : State World OutputSink) :
  (∀ e, runPulumiCmd this ["history"; "--json"; "--show-secrets"] None s
          = (Err e, s1) →
     history this s = (Err e, s1) ∧ info this s = (Err e, s1))
  ∧ (∀ printed e,
     runPulumiCmd this ["history"; "--json"; "--show-secrets"] None s
       = (Ok printed, s1) →
     JSON_parse (stdout printed) = Err e →
     history this s = (Err e, s1) ∧ info this s = (Err e, s1)).
Proof.
  split; intros; unfold Automation.info, Automation.history; unfold_async;
    by repeat (use_outcome; simpl).
Qed.

(** X9.  Both output commands run before anything is parsed: when they
    succeed and the masked output does not parse, [outputs()] fails with
    that error; when the masked output parses and the plaintext output
    does not, it fails with the error of the plaintext output. *)
Theorem outputs_parse_failure (this : Stack) (s s0 sM sP : State World OutputSink)
    (masked plaintext : CommandResult) :
  select this s = (Ok (), s0) →
  runPulumiCmd this ["stack"; "output"; "--json"] None s0 = (Ok masked, sM) →
  runPulumiCmd this ["stack"; "output"; "--json"; "--show-secrets"] None sM
    = (Ok plaintext, sP) →
  (∀ e, JSON_parse (stdout masked) = Err e → outputs this s = (Err e, sP))
  ∧ (∀ M e, JSON_parse (stdout masked) = Ok M →
       JSON_parse (stdout plaintext) = Err e → outputs this s = (Err e, sP)).
Proof.
  intros Hsel Hmasked Hplain. unfold call in Hsel.
  split; intros; unfold Automation.outputs, outputs_of; unfold_async;
    by repeat (use_outcome; simpl).
Qed.

(** X10.  When the plaintext output is the empty object, [outputs()]
    resolves with the empty map whatever JSON value the masked output is. *)
Theorem outputs_of_empty_plaintext (this : Stack) (s s0 sM sP : State World OutputSink)
    (masked plaintext : CommandResult) (M : Json) :
  select this s = (Ok (), s0) →
  runPulumiCmd this ["stack"; "output"; "--json"] None s0 = (Ok masked, sM) →
  runPulumiCmd this ["stack"; "output"; "--json"; "--show-secrets"] None sM
    = (Ok plaintext, sP) →
  JSON_parse (stdout masked) = Ok M →
  JSON_parse (stdout plaintext) = Ok (JObject ∅) →
  outputs this s = (Ok ∅, sP).
Proof.
  intros Hsel Hmasked Hplain HM HP. unfold call in Hsel.
  unfold Automation.outputs. unfold_async.
  rewrite Hsel, Hmasked, Hplain.
  by rewrite (outputs_of_empty JSON_parse _ _ M HM HP).
Qed.

(** X11.  [outputs()] fails with a TypeError when the plaintext output is
    [null], and when the masked output is [null] while the plaintext
    output is an object with at least one key. *)
Theorem outputs_null_view (this : Stack) (s s0 sM sP : State World OutputSink)
    (masked plaintext : CommandResult) :
  select this s = (Ok (), s0) →
  runPulumiCmd this ["stack"; "output"; "--json"] None s0 = (Ok masked, sM) →
  runPulumiCmd this ["stack"; "output"; "--json"; "--show-secrets"] None sM
    = (Ok plaintext, sP) →
  (∀ M, JSON_parse (stdout masked) = Ok M →
     JSON_parse (stdout plaintext) = Ok JNull →
     ∃ msg, outputs this s = (Err (TypeError msg), sP))
  ∧ (∀ P : gmap string Json,
     JSON_parse (stdout masked) = Ok JNull →
     JSON_parse (stdout plaintext) = Ok (JObject P) →
     P ≠ ∅ →
     ∃ msg, outputs this s = (Err (TypeError msg), sP)).
Proof.
  intros Hsel Hmasked Hplain. unfold call in Hsel. split.
  - intros M HM HP. unfold Automation.outputs, outputs_of. unfold_async.
    rewrite Hsel, Hmasked, Hplain, HM, HP. simpl. eauto.
  - intros P HM HP Hne. unfold Automation.outputs, outputs_of. unfold_async.
    rewrite Hsel, Hmasked, Hplain, HM, HP. simpl.
    destruct (map_to_list P) as [|[k v] entries] eqn:Hentries.
    + by apply map_to_list_empty_iff in Hentries.
    + simpl. eauto.
Qed.


End Queries.

Lemma info_resolves_on_any_history_witness :
  (info Demo.workspace Demo.engine Demo.parse_more Demo.dev
     (Demo.start (Demo.world_printing "null" "{}" "{}"))).1 = Ok None.
Proof.
  edestruct (info_resolves_on_any_history Demo.workspace Demo.engine
    Demo.parse_more Demo.dev (Demo.start (Demo.world_printing "null" "{}" "{}")))
    as [_ Hnull]; [vm_compute; reflexivity|].
  rewrite Hnull; reflexivity.
Defined.

Lemma history_failure_propagates_witness :
  (history Demo.workspace Demo.broken_engine Demo.parse Demo.dev Demo.idle).1
    = Err (Error "exit status 255")
  ∧ (info Demo.workspace Demo.engine Demo.parse Demo.dev
       (Demo.start (Demo.world_printing "Usage:" "{}" "{}"))).1
    = Err (SyntaxError "Unexpected token").
Proof.
  split.
  - destruct (history_failure_propagates Demo.workspace Demo.broken_engine
      Demo.parse Demo.dev Demo.idle
      (runPulumiCmd Demo.workspace Demo.broken_engine Demo.dev
         ["history"; "--json"; "--show-secrets"] None Demo.idle).2)
      as [Hcmd _].
    rewrite (proj1 (Hcmd _ eq_refl)). reflexivity.
  - destruct (history_failure_propagates Demo.workspace Demo.engine
      Demo.parse Demo.dev (Demo.start (Demo.world_printing "Usage:" "{}" "{}"))
      (runPulumiCmd Demo.workspace Demo.engine Demo.dev
         ["history"; "--json"; "--show-secrets"] None
         (Demo.start (Demo.world_printing "Usage:" "{}" "{}"))).2)
      as [_ Hparse].
    rewrite (proj2 (Hparse _ _ eq_refl eq_refl)). reflexivity.
Defined.

Lemma outputs_parse_failure_witness :
  (outputs Demo.workspace Demo.engine Demo.parse_more Demo.dev
     (Demo.start (Demo.world_printing "[]" "error: no stack" "{}"))).1
    = Err (SyntaxError "Unexpected token").
Proof.
  edestruct (outputs_parse_failure Demo.workspace Demo.engine Demo.parse_more
    Demo.dev (Demo.start (Demo.world_printing "[]" "error: no stack" "{}")))
    as [Hmasked _]; [vm_compute; reflexivity..|].
  rewrite (Hmasked _ eq_refl). reflexivity.
Defined.

Lemma outputs_of_empty_plaintext_witness :
  (outputs Demo.workspace Demo.engine Demo.parse_more Demo.dev
     (Demo.start (Demo.world_printing "[]" "null" "{}"))).1 = Ok ∅.
Proof.
  erewrite (outputs_of_empty_plaintext Demo.workspace Demo.engine
    Demo.parse_more Demo.dev (Demo.start (Demo.world_printing "[]" "null" "{}")));
    [reflexivity|vm_compute; reflexivity..].
Defined.

Lemma outputs_null_view_witness :
  (∃ msg, (outputs Demo.workspace Demo.engine Demo.parse_more Demo.dev
             (Demo.start (Demo.world_printing "[]" "{}" "null"))).1
          = Err (TypeError msg))
  ∧ (∃ msg, (outputs Demo.workspace Demo.engine Demo.parse_more Demo.dev
               (Demo.start (Demo.world_printing "[]" "null"
                              Demo.plaintext_outputs))).1
            = Err (TypeError msg)).
Proof.
  split.
  - edestruct (outputs_null_view Demo.workspace Demo.engine Demo.parse_more
      Demo.dev (Demo.start (Demo.world_printing "[]" "{}" "null")))
      as [Hplain _]; [vm_compute; reflexivity..|].
    destruct (Hplain _ eq_refl eq_refl) as [msg Hmsg].
    exists msg. rewrite Hmsg; reflexivity.
  - edestruct (outputs_null_view Demo.workspace Demo.engine Demo.parse_more
      Demo.dev (Demo.start (Demo.world_printing "[]" "null"
                              Demo.plaintext_outputs)))
      as [_ Hmasked]; [vm_compute; reflexivity..|].
    destruct (Hmasked _ eq_refl eq_refl (insert_non_empty _ _ _)) as [msg Hmsg].
    exists msg. rewrite Hmsg; reflexivity.
Defined.


(** ** The lifecycle operations, continued *)

Section Operations.
Context {World PulumiFn OutputSink : Type}.
Context (workspace : Workspace World PulumiFn).
Context (cmd_runPulumiCmd :
  Invocation OutputSink → World → result CommandResult * World).
Context (JSON_parse : string → result Json).

Local Abbreviation at_world := (λ (s : State World OutputSink) w,
  {| world := w; spawned := spawned s |}).
Local Abbreviation runPulumiCmd := (runPulumiCmd workspace cmd_runPulumiCmd).
Local Abbreviation history := (history workspace cmd_runPulumiCmd JSON_parse).
Local Abbreviation info := (info workspace cmd_runPulumiCmd JSON_parse).
Local Abbreviation outputs := (outputs workspace cmd_runPulumiCmd JSON_parse).
Local Abbreviation summarize := (summarize workspace cmd_runPulumiCmd JSON_parse).
Local Abbreviation up_run := (up_run workspace cmd_runPulumiCmd).
Local Abbreviation preview_run := (preview_run workspace cmd_runPulumiCmd).
Local Abbreviation refresh_run := (refresh_run workspace cmd_runPulumiCmd).
Local Abbreviation destroy_run := (destroy_run workspace cmd_runPulumiCmd).
Local Abbreviation up := (up workspace cmd_runPulumiCmd JSON_parse).
Local Abbreviation preview := (preview workspace cmd_runPulumiCmd JSON_parse).
Local Abbreviation refresh := (refresh workspace cmd_runPulumiCmd JSON_parse).
Local Abbreviation destroy := (destroy workspace cmd_runPulumiCmd JSON_parse).

(** X13.  When the select that opens [up], [preview], [refresh],
    [destroy] or [outputs] fails, the method fails with that error and the
    endpoint is not invoked, whatever the options and whether or not a
    program is present. *)
Theorem select_failure_stops_operation (this : Stack) (s : State World OutputSink)
    (e : JsError) (w : World) :
  selectStack workspace (name this) (world s) = (Err e, w) →
  (∀ opts, up this opts s = (Err e, at_world s w))
  ∧ (∀ opts, preview this opts s = (Err e, at_world s w))
  ∧ (∀ opts, refresh this opts s = (Err e, at_world s w))
  ∧ (∀ opts, destroy this opts s = (Err e, at_world s w))
  ∧ outputs this s = (Err e, at_world s w).
Proof.
  intros Hsel.
  repeat split; intros;
    unfold Automation.up, Automation.up_run, Automation.preview,
      Automation.preview_run, Automation.refresh, Automation.refresh_run,
      Automation.destroy, Automation.destroy_run, Automation.outputs;
    unfold_async; simpl; by rewrite Hsel.
Qed.



(** *** The output callback *)

Lemma only_spawns_bind {A B} (P : Invocation OutputSink → Prop)
    (m : Async World OutputSink A) (f : A → Async World OutputSink B) :
  only_spawns P m → (∀ a, only_spawns P (f a)) → only_spawns P (m ≫= f).
Proof.
  intros Hm Hf s. destruct (Hm s) as (l & Hl & HP).
  unfold mbind, Async_bind, bind.
  destruct (m s) as [[a|e] s1]; simpl in *; [|by exists l].
  destruct (Hf a s1) as (l' & Hl' & HP').
  exists (l ++ l'). split; [|by apply Forall_app].
  rewrite Hl', Hl. by rewrite <- app_assoc.
Qed.

Lemma only_spawns_pure {A} (P : Invocation OutputSink → Prop)
    (m : Async World OutputSink A) :
  (∀ s, spawned (m s).2 = spawned s) → only_spawns P m.
Proof. intros Hm s. exists []. by rewrite Hm, app_nil_r. Qed.

Lemma only_spawns_promise {A} (P : Invocation OutputSink → Prop)
    (m : Async World OutputSink A) :
  only_spawns P m → only_spawns P (promise m).
Proof.
  intros Hm s. destruct (Hm s) as (l & Hl & HP). exists l.
  unfold promise. by destruct (m s).
Qed.

Lemma runPulumiCmd_only_spawns (this : Stack) args onOutput :
  only_spawns (λ i, inv_onOutput i = onOutput) (runPulumiCmd this args onOutput).
Proof.
  intros s.
  destruct (getEnvVars workspace (world s)) as [[envs|e] w1] eqn:Henvs.
  - destruct (serializeArgsForOp workspace (name this) w1) as [[extra|e] w2]
      eqn:Hargs.
    + rewrite (runPulumiCmd_spawn workspace cmd_runPulumiCmd this args onOutput
                 s envs w1 extra w2 Henvs Hargs).
      eexists [_]. split; [by repeat (case_match; simplify_eq/=)|].
      by apply Forall_singleton.
    + exists []. unfold Automation.runPulumiCmd. unfold_async. simpl.
      rewrite Henvs. simpl. rewrite Hargs. simpl. by rewrite app_nil_r.
  - exists []. unfold Automation.runPulumiCmd. unfold_async. simpl.
    rewrite Henvs. simpl. by rewrite app_nil_r.
Qed.

Lemma info_only_spawns (this : Stack) :
  only_spawns (λ i, inv_onOutput i = None) (info this).
Proof.
  apply only_spawns_bind; [|by intros; apply only_spawns_pure].
  apply only_spawns_bind; [apply runPulumiCmd_only_spawns|].
  intros printed. apply only_spawns_bind; by intros; apply only_spawns_pure.
Qed.

Lemma outputs_only_spawns (this : Stack) :
  only_spawns (λ i, inv_onOutput i = None) (outputs this).
Proof.
  apply only_spawns_bind; [apply only_spawns_pure, call_silent|]. intros _.
  apply only_spawns_bind;
    [apply only_spawns_promise, runPulumiCmd_only_spawns|]. intros maskedPromise.
  apply only_spawns_bind;
    [apply only_spawns_promise, runPulumiCmd_only_spawns|]. intros plaintextPromise.
  apply only_spawns_bind; [by apply only_spawns_pure|]. intros masked.
  apply only_spawns_bind; by intros; apply only_spawns_pure.
Qed.

Lemma summarize_only_spawns (this : Stack) cmdResult :
  only_spawns (λ i, inv_onOutput i = None) (summarize this cmdResult).
Proof.
  apply only_spawns_bind; [apply info_only_spawns|].
  by intros; apply only_spawns_pure.
Qed.

(** X15.  [preview], [refresh] and [destroy] never hand an output callback
    to the endpoint, also when their options carry [onOutput]; the queries
    of [info()] and [outputs()] carry none either. *)
Theorem callback_reaches_only_up (this : Stack) (s : State World OutputSink) :
  (∀ opts, ∃ l, spawned (preview this opts s).2 = spawned s ++ l
                ∧ Forall (λ i, inv_onOutput i = None) l)
  ∧ (∀ opts, ∃ l, spawned (refresh this opts s).2 = spawned s ++ l
                  ∧ Forall (λ i, inv_onOutput i = None) l)
  ∧ (∀ opts, ∃ l, spawned (destroy this opts s).2 = spawned s ++ l
                  ∧ Forall (λ i, inv_onOutput i = None) l)
  ∧ (∃ l, spawned (info this s).2 = spawned s ++ l
          ∧ Forall (λ i, inv_onOutput i = None) l)
  ∧ (∃ l, spawned (outputs this s).2 = spawned s ++ l
          ∧ Forall (λ i, inv_onOutput i = None) l).
Proof.
  repeat split; try intros opts.
  - apply only_spawns_bind; [|apply summarize_only_spawns].
    apply only_spawns_bind; [by apply only_spawns_pure|]. intros program.
    apply only_spawns_bind; [apply only_spawns_pure, call_silent|]. intros _.
    destruct (preview_options _ _ _) as [program' args].
    destruct (inline_check _ _) as [kind [thrown|]];
      [by apply only_spawns_pure|apply runPulumiCmd_only_spawns].
  - apply only_spawns_bind; [|apply summarize_only_spawns].
    apply only_spawns_bind; [apply only_spawns_pure, call_silent|]. intros _.
    apply runPulumiCmd_only_spawns.
  - apply only_spawns_bind; [|apply summarize_only_spawns].
    apply only_spawns_bind; [apply only_spawns_pure, call_silent|]. intros _.
    apply runPulumiCmd_only_spawns.
  - apply info_only_spawns.
  - apply outputs_only_spawns.
Qed.

(** *** What a successful operation has done *)

Lemma bind_Ok {A B} (m : Async World OutputSink A)
    (f : A → Async World OutputSink B) (s s' : State World OutputSink) (b : B) :
  (m ≫= f) s = (Ok b, s') → ∃ a s1, m s = (Ok a, s1) ∧ f a s1 = (Ok b, s').
Proof.
  unfold mbind, Async_bind, bind. destruct (m s) as [[a|e] s1]; [eauto|done].
Qed.

Lemma call_Ok {A} (f : World → result A * World) (s s' : State World OutputSink)
    (a : A) :
  call f s = (Ok a, s') → spawned s' = spawned s.
Proof. unfold call. destruct (f (world s)). by intros [= _ <-]. Qed.

Lemma info_Ok (this : Stack) (s s' : State World OutputSink) summary :
  info this s = (Ok summary, s') →
  ∃ i extra,
    spawned s' = spawned s ++ [i]
    ∧ inv_args i = ["history"; "--json"; "--show-secrets"] ++ extra.
Proof.
  intros Hinfo.
  apply bind_Ok in Hinfo as (value & s1 & Hhistory & Hof).
  apply bind_Ok in Hhistory as (printed & s2 & Hrun & Hparse).
  apply bind_Ok in Hparse as (parsed & s3 & Hparsed & Hret).
  apply runPulumiCmd_Ok in Hrun as (i & extra & Hs2 & Hargs & _).
  unfold sync, await in Hof, Hparsed. unfold mret, Async_ret, ret in Hret.
  simplify_eq. eauto.
Qed.

Lemma summarize_Ok (this : Stack) cmdResult (s s' : State World OutputSink) r :
  summarize this cmdResult s = (Ok r, s') →
  ∃ i extra,
    spawned s' = spawned s ++ [i]
    ∧ inv_args i = ["history"; "--json"; "--show-secrets"] ++ extra.
Proof.
  intros Hsum. apply bind_Ok in Hsum as (summary & s1 & Hinfo & Hret).
  unfold mret, Async_ret, ret in Hret. simplify_eq.
  by apply info_Ok in Hinfo.
Qed.

Lemma outputs_Ok_length (this : Stack) (s s' : State World OutputSink) om :
  outputs this s = (Ok om, s') →
  ∃ l, spawned s' = spawned s ++ l ∧ length l = 2.
Proof.
  intros Houts.
  apply bind_Ok in Houts as ([] & s0 & Hsel & Houts).
  apply call_Ok in Hsel.
  apply bind_Ok in Houts as (maskedPromise & sM & Hmasked & Houts).
  apply bind_Ok in Houts as (plaintextPromise & sP & Hplain & Houts).
  apply bind_Ok in Houts as (masked & s1 & Hawait1 & Houts).
  apply bind_Ok in Houts as (plaintext & s2 & Hawait2 & Houts).
  unfold await in Hawait1, Hawait2. unfold sync, await in Houts.
  unfold promise in Hmasked, Hplain.
  destruct (runPulumiCmd this ["stack"; "output"; "--json"] None s0)
    as [r1 sM'] eqn:Hrun1.
  destruct (runPulumiCmd this ["stack"; "output"; "--json"; "--show-secrets"]
    None sM) as [r2 sP'] eqn:Hrun2.
  simplify_eq.
  apply runPulumiCmd_Ok in Hrun1 as (i1 & extra1 & HsM & _).
  apply runPulumiCmd_Ok in Hrun2 as (i2 & extra2 & HsP & _).
  exists [i1; i2]. split; [|done].
  rewrite HsP, HsM, Hsel. by rewrite <- app_assoc.
Qed.

Lemma refresh_run_Ok (this : Stack) opts (s s' : State World OutputSink) res :
  refresh_run this opts s = (Ok res, s') →
  ∃ i extra,
    spawned s' = spawned s ++ [i]
    ∧ inv_args i = ["refresh"; "--yes"; "--skip-preview"] ++ refresh_flags opts
                   ++ extra.
Proof.
  intros Hrun. apply bind_Ok in Hrun as ([] & s0 & Hsel & Hrun).
  apply call_Ok in Hsel. rewrite refresh_options_flags in Hrun.
  apply runPulumiCmd_Ok in Hrun as (i & extra & Hs' & Hargs & _).
  exists i, extra. rewrite Hs', Hsel, Hargs. by rewrite <- app_assoc.
Qed.

Lemma destroy_run_Ok (this : Stack) opts (s s' : State World OutputSink) res :
  destroy_run this opts s = (Ok res, s') →
  ∃ i extra,
    spawned s' = spawned s ++ [i]
    ∧ inv_args i = ["destroy"; "--yes"; "--skip-preview"] ++ destroy_flags opts
                   ++ extra.
Proof.
  intros Hrun. apply bind_Ok in Hrun as ([] & s0 & Hsel & Hrun).
  apply call_Ok in Hsel. rewrite destroy_options_flags in Hrun.
  apply runPulumiCmd_Ok in Hrun as (i & extra & Hs' & Hargs & _).
  exists i, extra. rewrite Hs', Hsel, Hargs. by rewrite <- app_assoc.
Qed.

Lemma preview_run_Ok (this : Stack) opts (s s' : State World OutputSink) res :
  preview_run this opts s = (Ok res, s') →
  ∃ i extra,
    spawned s' = spawned s ++ [i]
    ∧ inv_args i = ["preview"] ++ preview_flags opts
                   ++ ["--exec-kind"; "auto.local"] ++ extra.
Proof.
  intros Hrun. apply bind_Ok in Hrun as (program & sr & Hread & Hrun).
  unfold read in Hread. injection Hread as <- <-.
  apply bind_Ok in Hrun as ([] & s0 & Hsel & Hrun).
  apply call_Ok in Hsel. rewrite preview_options_flags in Hrun.
  destruct (set_program _ _); simpl in Hrun; [done|].
  apply runPulumiCmd_Ok in Hrun as (i & extra & Hs' & Hargs & _).
  exists i, extra. rewrite Hs', Hsel, Hargs. simpl. by rewrite <- !app_assoc.
Qed.

Lemma up_run_Ok (this : Stack) opts (s s' : State World OutputSink) res :
  up_run this opts s = (Ok res, s') →
  ∃ i extra,
    spawned s' = spawned s ++ [i]
    ∧ inv_args i = ["up"; "--yes"; "--skip-preview"] ++ up_flags opts
                   ++ ["--exec-kind"; "auto.local"] ++ extra
    ∧ inv_onOutput i = opts ≫= UpOptions.onOutput.
Proof.
  intros Hrun. apply bind_Ok in Hrun as (program & sr & Hread & Hrun).
  unfold read in Hread. injection Hread as <- <-.
  apply bind_Ok in Hrun as ([] & s0 & Hsel & Hrun).
  apply call_Ok in Hsel. rewrite up_options_flags in Hrun.
  destruct (set_program _ _); simpl in Hrun; [done|].
  apply runPulumiCmd_Ok in Hrun as (i & extra & Hs' & Hargs & Hon).
  exists i, extra. rewrite Hs', Hsel, Hargs. simpl. by rewrite <- !app_assoc.
Qed.

(** X16.  A [preview], [refresh] or [destroy] that resolves has made
    exactly two invocations of the endpoint: its own command with the
    argument list it built, then the history query.  An [up] that resolves
    has made four: its command first, carrying the caller's output
    callback, and three queries. *)
Theorem successful_operation_invocations (this : Stack)
    (s s' : State World OutputSink) :
  (∀ opts r, refresh this opts s = (Ok r, s') →
     ∃ i1 i2 extra1 extra2,
       spawned s' = spawned s ++ [i1; i2]
       ∧ inv_args i1 = ["refresh"; "--yes"; "--skip-preview"]
                       ++ refresh_flags opts ++ extra1
       ∧ inv_args i2 = ["history"; "--json"; "--show-secrets"] ++ extra2)
  ∧ (∀ opts r, destroy this opts s = (Ok r, s') →
     ∃ i1 i2 extra1 extra2,
       spawned s' = spawned s ++ [i1; i2]
       ∧ inv_args i1 = ["destroy"; "--yes"; "--skip-preview"]
                       ++ destroy_flags opts ++ extra1
       ∧ inv_args i2 = ["history"; "--json"; "--show-secrets"] ++ extra2)
  ∧ (∀ opts r, preview this opts s = (Ok r, s') →
     ∃ i1 i2 extra1 extra2,
       spawned s' = spawned s ++ [i1; i2]
       ∧ inv_args i1 = ["preview"] ++ preview_flags opts
                       ++ ["--exec-kind"; "auto.local"] ++ extra1
       ∧ inv_args i2 = ["history"; "--json"; "--show-secrets"] ++ extra2)
  ∧ (∀ opts r, up this opts s = (Ok r, s') →
     ∃ i1 queries extra1,
       spawned s' = spawned s ++ i1 :: queries
       ∧ length queries = 3
       ∧ inv_args i1 = ["up"; "--yes"; "--skip-preview"] ++ up_flags opts
                       ++ ["--exec-kind"; "auto.local"] ++ extra1
       ∧ inv_onOutput i1 = opts ≫= UpOptions.onOutput).
Proof.
  repeat split; intros opts r Hop.
  - apply bind_Ok in Hop as (res & s2 & Hrun & Hsum).
    apply refresh_run_Ok in Hrun as (i1 & extra1 & Hs2 & Hargs1).
    apply summarize_Ok in Hsum as (i2 & extra2 & Hs' & Hargs2).
    exists i1, i2, extra1, extra2. rewrite Hs', Hs2. by rewrite <- app_assoc.
  - apply bind_Ok in Hop as (res & s2 & Hrun & Hsum).
    apply destroy_run_Ok in Hrun as (i1 & extra1 & Hs2 & Hargs1).
    apply summarize_Ok in Hsum as (i2 & extra2 & Hs' & Hargs2).
    exists i1, i2, extra1, extra2. rewrite Hs', Hs2. by rewrite <- app_assoc.
  - apply bind_Ok in Hop as (res & s2 & Hrun & Hsum).
    apply preview_run_Ok in Hrun as (i1 & extra1 & Hs2 & Hargs1).
    apply summarize_Ok in Hsum as (i2 & extra2 & Hs' & Hargs2).
    exists i1, i2, extra1, extra2. rewrite Hs', Hs2. by rewrite <- app_assoc.
  - apply bind_Ok in Hop as (res & s2 & Hrun & Hop).
    apply up_run_Ok in Hrun as (i1 & extra1 & Hs2 & Hargs1 & Hon).
    apply bind_Ok in Hop as (status0 & s3 & Hinfo & Hop).
    apply bind_Ok in Hop as (status1 & s4 & Houts & Hop).
    apply bind_Ok in Hop as (summary & s5 & Hawait0 & Hop).
    apply bind_Ok in Hop as (outs & s6 & Hawait1 & Hret).
    unfold await in Hawait0, Hawait1. unfold promise in Hinfo, Houts.
    unfold mret, Async_ret, ret in Hret.
    destruct (info this s2) as [r0 s3'] eqn:Hinfo'.
    destruct (outputs this s3) as [r1 s4'] eqn:Houts'.
    simplify_eq.
    apply info_Ok in Hinfo' as (i2 & extra2 & Hs3 & _).
    apply outputs_Ok_length in Houts' as (l & Hs4 & Hlen).
    exists i1, (i2 :: l), extra1. split; [|by simpl; rewrite Hlen].
    rewrite Hs4, Hs3, Hs2. by rewrite <- !app_assoc.
Qed.

(** *** The summary of a result *)



(** X18.  On the local path, when the select succeeds and the workspace
    delivers its environment and arguments, the first invocation [up]
    makes is its command: up --yes --skip-preview, the optional flags,
    --exec-kind auto.local and the workspace's arguments, in the
    workspace's directory, with the caller's output callback. *)
Theorem up_invokes_command (this : Stack) opts (s : State World OutputSink)
    w0 envs w1 extra w2 :
  set_program (opts ≫= UpOptions.program) (getProgram workspace (world s)) = None →
  selectStack workspace (name this) (world s) = (Ok (), w0) →
  getEnvVars workspace w0 = (Ok envs, w1) →
  serializeArgsForOp workspace (name this) w1 = (Ok extra, w2) →
  ∃ i later,
    spawned (up this opts s).2 = spawned s ++ i :: later
    ∧ inv_args i = ["up"; "--yes"; "--skip-preview"] ++ up_flags opts
                   ++ ["--exec-kind"; "auto.local"] ++ extra
    ∧ inv_cwd i = getWorkDir workspace w2
    ∧ inv_onOutput i = opts ≫= UpOptions.onOutput.
Proof.
  intros Hprogram Hsel Henvs Hargs.
  assert (Hrun : ∃ i,
    spawned (up_run this opts s).2 = spawned s ++ [i]
    ∧ inv_args i = ["up"; "--yes"; "--skip-preview"] ++ up_flags opts
                   ++ ["--exec-kind"; "auto.local"] ++ extra
    ∧ inv_cwd i = getWorkDir workspace w2
    ∧ inv_onOutput i = opts ≫= UpOptions.onOutput).
  { eexists. unfold Automation.up_run.
    unfold mbind at 1 2, Async_bind, bind, read, call. simpl.
    rewrite Hsel, up_options_flags, Hprogram. simpl.
    rewrite (runPulumiCmd_spawn workspace cmd_runPulumiCmd this _ _
               (at_world s w0) envs w1 extra w2 Henvs Hargs).
    split; [by repeat (case_match; simplify_eq/=)|].
    simpl. by rewrite <- !app_assoc. }
  destruct Hrun as (i & Hi & Hargs' & Hcwd & Hon).
  assert (Hgrows : spawned (up_run this opts s).2
                     `prefix_of` spawned (up this opts s).2).
  { unfold Automation.up. unfold mbind at 1, Async_bind, bind. fold up_run.
    destruct (up_run this opts s) as [[res|e] s2]; simpl; [|done].
    apply (grows_bind (promise (info this))); [apply grows_promise, info_grows|].
    intros status0.
    apply grows_bind; [apply grows_promise, outputs_grows|]. intros status1.
    apply grows_bind; [by apply grows_pure|]. intros summary.
    apply grows_bind; by intros; apply grows_pure. }
  destruct Hgrows as [later Hlater]. exists i, later.
  rewrite Hlater, Hi. by rewrite <- app_assoc.
Qed.

End Operations.

Lemma select_failure_stops_operation_witness :
  refresh Demo.workspace Demo.engine Demo.parse Demo.prod (Some Demo.with_sink)
    Demo.idle = (Err (Error "no stack named: prod"), Demo.idle)
  ∧ outputs Demo.workspace Demo.engine Demo.parse Demo.prod Demo.idle
    = (Err (Error "no stack named: prod"), Demo.idle).
Proof.
  destruct (select_failure_stops_operation Demo.workspace Demo.engine Demo.parse
    Demo.prod Demo.idle _ _ eq_refl) as (_ & _ & Hrefresh & _ & Houtputs).
  split; [exact (Hrefresh (Some Demo.with_sink))|exact Houtputs].
Defined.


Lemma successful_operation_invocations_witness :
  ∃ i1 i2,
    spawned (refresh Demo.workspace Demo.engine Demo.parse Demo.dev
               (Some Demo.with_sink) Demo.idle).2 = [i1; i2]
    ∧ inv_args i1 = ["refresh"; "--yes"; "--skip-preview"; "--message"; "nightly";
                     "--stack"; "dev"]
    ∧ inv_args i2 = ["history"; "--json"; "--show-secrets"; "--stack"; "dev"].
Proof.
  destruct (refresh Demo.workspace Demo.engine Demo.parse Demo.dev
    (Some Demo.with_sink) Demo.idle) as [[r|e] s'] eqn:Hrun;
    [|vm_compute in Hrun; discriminate Hrun].
  destruct (proj1 (successful_operation_invocations Demo.workspace Demo.engine
    Demo.parse Demo.dev Demo.idle s') (Some Demo.with_sink) r Hrun)
    as (i1 & i2 & extra1 & extra2 & Hs' & _).
  exists i1, i2. split; [exact Hs'|].
  assert (Hlog : spawned s' = spawned (refresh Demo.workspace Demo.engine
    Demo.parse Demo.dev (Some Demo.with_sink) Demo.idle).2)
    by (rewrite Hrun; reflexivity).
  rewrite Hs' in Hlog. vm_compute in Hlog.
  injection Hlog as Hi1 Hi2. rewrite Hi1, Hi2. split; reflexivity.
Defined.


Lemma up_invokes_command_witness :
  ∃ i later,
    spawned (up Demo.workspace Demo.engine Demo.parse Demo.dev
               (Some Demo.up_with_sink) Demo.idle).2 = i :: later
    ∧ inv_args i = ["up"; "--yes"; "--skip-preview"; "--parallel"; "4";
                    "--exec-kind"; "auto.local"; "--stack"; "dev"]
    ∧ inv_onOutput i = Some ().
Proof.
  destruct (up_invokes_command Demo.workspace Demo.engine Demo.parse Demo.dev
    (Some Demo.up_with_sink) Demo.idle _ _ _ _ _ eq_refl eq_refl eq_refl eq_refl)
    as (i & later & Hspawned & Hargs & _ & Hon).
  exists i, later. split; [exact Hspawned|]. split; [exact Hargs|exact Hon].
Defined.

(** ** The language runtime, continued *)

Section RuntimeOptions.
Import Deploytest.
Context {RunInfo PluginInfo ClientConn ResourceMonitorClient : Type}.
Context (MonitorAddress : RunInfo → string).
Context (grpc_Dial : string → ClientConn + error).
Context (NewResourceMonitorClient : ClientConn → ResourceMonitorClient).

Local Abbreviation Run :=
  (Run (PluginInfo := PluginInfo) MonitorAddress grpc_Dial NewResourceMonitorClient).
Local Abbreviation Runtime := (@languageRuntime RunInfo PluginInfo ResourceMonitorClient).

Lemma options_fold (ds : list (PluginInfo + bool)) (r0 r : Runtime) :
  r = foldl (λ r o, o r) r0 (option_of <$> ds) →
  requiredPlugins r = requiredPlugins r0 ++ omap plugin_of ds
  ∧ enableSecrets r = default (enableSecrets r0) (last (omap secrets_of ds))
  ∧ program r = program r0.
Proof.
  revert r0 r. induction ds as [|d ds IH]; intros r0 r ->.
  - simpl. by rewrite app_nil_r.
  - rewrite fmap_cons. cbn [foldl].
    destruct (IH (option_of d r0) _ eq_refl) as (Hplugins & Hsecrets & Hprogram).
    rewrite Hplugins, Hsecrets, Hprogram.
    destruct d as [info|enable]; simpl.
    + by rewrite <- app_assoc.
    + rewrite last_cons. by destruct (last _).
Qed.

(** X19.  A runtime built by [NewLanguageRuntime] from [RequiredPlugin]
    and [EnableSecrets] options reports the required plugins in the order
    the options were given, with no error; it has secrets enabled as the
    last [EnableSecrets] option says, and disabled when there is none;
    and it runs the program it was given. *)
Theorem NewLanguageRuntime_options
    (prog : @ProgramFunc RunInfo ResourceMonitorClient)
    (ds : list (PluginInfo + bool)) (r : Runtime) :
  r = NewLanguageRuntime prog (option_of <$> ds) →
  GetRequiredPlugins r = (omap plugin_of ds, None)
  ∧ enableSecrets r = default false (last (omap secrets_of ds))
  ∧ program r = prog.
Proof.
  intros ->. unfold NewLanguageRuntime, GetRequiredPlugins.
  destruct (options_fold ds
    {| requiredPlugins := []; program := prog; enableSecrets := false |}
    _ eq_refl) as (Hplugins & Hsecrets & Hprogram).
  by rewrite Hplugins, Hsecrets, Hprogram.
Qed.


(** X21.  A program that fails with an error whose message is empty is
    reported by [Run] exactly as a program that succeeds: the empty string
    and no error. *)
Theorem Run_hides_empty_message (p : Runtime) (info : RunInfo) (conn : ClientConn)
    (e : error) :
  grpc_Dial (MonitorAddress info) = inl conn →
  program p info {| resmon := NewResourceMonitorClient conn;
                    rm_enableSecrets := enableSecrets p |} = Some e →
  Deploytest.Error e = "" →
  Run p info = ("", None).
Proof.
  intros Hdial Hprogram Hmessage. unfold Deploytest.Run.
  by rewrite Hdial, Hprogram, Hmessage.
Qed.

End RuntimeOptions.

Lemma NewLanguageRuntime_options_witness :
  Deploytest.GetRequiredPlugins
    (Deploytest.NewLanguageRuntime Demo.quiet_program
       [Deploytest.RequiredPlugin "aws"; Deploytest.EnableSecrets true;
        Deploytest.RequiredPlugin "random"; Deploytest.EnableSecrets false])
    = (["aws"; "random"], None)
  ∧ Deploytest.enableSecrets
      (Deploytest.NewLanguageRuntime Demo.quiet_program
         [Deploytest.RequiredPlugin "aws"; Deploytest.EnableSecrets true;
          Deploytest.RequiredPlugin "random"; Deploytest.EnableSecrets false])
    = false.
Proof.
  destruct (NewLanguageRuntime_options Demo.quiet_program
    [inl "aws"; inr true; inl "random"; inr false] _ eq_refl)
    as (Hplugins & Hsecrets & _).
  split; [exact Hplugins|exact Hsecrets].
Defined.


Lemma Run_hides_empty_message_witness :
  Deploytest.Run id Demo.dial id (Demo.runtime Demo.mute_failing_program)
    "127.0.0.1:4000" = ("", None).
Proof.
  exact (Run_hides_empty_message id Demo.dial id
           (Demo.runtime Demo.mute_failing_program) "127.0.0.1:4000" _ _
           eq_refl eq_refl eq_refl).
Defined.
